(** * PPR table extraction: a shallow embedding of [PPRParser]

    The development follows [.github/workflows/oppdater_ppr.py]: the class
    [PPRParser] with its five page scans ([_find_table_2a] .. [_find_table_3])
    and its three grid parsers ([_parse_monthly_table],
    [_parse_quarterly_table], [_parse_annual_table]), and the functions
    [get_next_ppr_info] and [build_ppr_url] with the branch of [main] that
    uses them.

    - A Python [str] is a list of Unicode code points.
    - A grid cell, as pdfplumber hands it over, is [None] or a [str].
    - A Python [dict] is an association list in insertion order whose keys
      are pairwise distinct; assignment overwrites in place.
    - List subscripts may raise [IndexError]; the code is written in a small
      error monad so that "no error is raised" is a statement to prove. *)

From Stdlib Require Import List NArith Bool Arith Lia String Ascii.
From Stdlib Require Import ZArith DecimalString DecimalZ.
Import ListNotations.

(* ------------------------------------------------------------------ *)
(** ** Strings *)

Definition char := N.
Definition str := list char.

(** A literal of the source, read code point by code point (literals written
    this way are ASCII; other code points are given by number). *)
Definition lit (s : string) : str := map N_of_ascii (list_ascii_of_string s).

Fixpoint str_eqb (a b : str) : bool :=
  match a, b with
  | [], [] => true
  | x :: a', y :: b' => (x =? y)%N && str_eqb a' b'
  | _, _ => false
  end.

(** [x in [s1, ..., sn]] on strings. *)
Definition in_list (x : str) (l : list str) : bool := existsb (str_eqb x) l.

(** The code points Python's [str.strip()] removes: those for which
    [str.isspace] holds. *)
Definition isspace (c : char) : bool :=
  (((9 <=? c) && (c <=? 13)) || ((28 <=? c) && (c <=? 32))
   || (c =? 133) || (c =? 160) || (c =? 5760)
   || ((8192 <=? c) && (c <=? 8202))
   || (c =? 8232) || (c =? 8233) || (c =? 8239) || (c =? 8287)
   || (c =? 12288))%N.

Fixpoint lstrip (s : str) : str :=
  match s with
  | [] => []
  | c :: s' => if isspace c then lstrip s' else s
  end.

Definition rstrip (s : str) : str := rev (lstrip (rev s)).

(** [s.strip()] *)
Definition strip (s : str) : str := rstrip (lstrip s).

Definition comma : char := 44%N.
Definition point : char := 46%N.

(** [s.replace(old, new)] for one-character [old] and [new]. *)
Definition replace (old new : char) (s : str) : str :=
  map (fun c => if (c =? old)%N then new else c) s.

Fixpoint startswith (s prefix : str) {struct prefix} : bool :=
  match prefix, s with
  | [], _ => true
  | p :: prefix', c :: s' => (p =? c)%N && startswith s' prefix'
  | _ :: _, [] => false
  end.

(** [sub in s] on strings: a literal, case-sensitive substring test. *)
Fixpoint contains (sub s : str) : bool :=
  startswith s sub ||
  match s with
  | [] => false
  | _ :: s' => contains sub s'
  end.

(* ------------------------------------------------------------------ *)
(** ** Exceptions *)

Inductive exn : Type := IndexError.

Inductive result (A : Type) : Type :=
| Ok (a : A)
| Raise (e : exn).

Arguments Ok {A} a.
Arguments Raise {A} e.

Definition bind {A B} (m : result A) (k : A -> result B) : result B :=
  match m with
  | Ok a => k a
  | Raise e => Raise e
  end.

Notation "x <- m ;; k" := (bind m (fun x => k))
  (at level 61, m at next level, right associativity).

(** [l[i]] for a non-negative [i]. *)
Definition subscript {A} (l : list A) (i : nat) : result A :=
  match nth_error l i with
  | Some x => Ok x
  | None => Raise IndexError
  end.

(** [for x in xs: s = body(s, x)], stopping at the first exception. *)
Fixpoint for_each {A S} (body : S -> A -> result S) (xs : list A) (s : S)
  : result S :=
  match xs with
  | [] => Ok s
  | x :: xs' => s' <- body s x ;; for_each body xs' s'
  end.

(* ------------------------------------------------------------------ *)
(** ** Dictionaries *)

Definition dict (V : Type) := list (str * V).

(** [d[k] = v] *)
Fixpoint dict_set {V} (k : str) (v : V) (d : dict V) : dict V :=
  match d with
  | [] => [(k, v)]
  | (k', v') :: d' =>
      if str_eqb k k' then (k', v) :: d' else (k', v') :: dict_set k v d'
  end.

(** [d.get(k)] *)
Fixpoint dict_get {V} (k : str) (d : dict V) : option V :=
  match d with
  | [] => None
  | (k', v') :: d' => if str_eqb k k' then Some v' else dict_get k d'
  end.

Definition dict_keys {V} (d : dict V) : list str := map fst d.

(** How many entries of [d] carry the key [k]. *)
Definition key_count {V} (k : str) (d : dict V) : nat :=
  List.length (filter (str_eqb k) (dict_keys d)).

(* ------------------------------------------------------------------ *)
(** ** Grids and cells *)

Definition Cell := option str.
Definition Row := list Cell.
Definition RawGrid := list Row.
Definition ParsedTable := dict (list str).

(** [str(cell)] *)
Definition py_str (cell : Cell) : str :=
  match cell with
  | Some s => s
  | None => lit "None"
  end.

(** The truth value of a cell in [if cell:]. *)
Definition truthy (cell : Cell) : bool :=
  match cell with
  | Some (_ :: _) => true
  | _ => false
  end.

(** The truth value of a string in [if var_name:]. *)
Definition nonempty (s : str) : bool :=
  match s with
  | [] => false
  | _ :: _ => true
  end.

(** [not row or len(row) < 2] *)
Definition too_short (row : Row) : bool :=
  match row with
  | [] => true
  | _ :: _ => List.length row <? 2
  end.

Definition missing_markers : list str :=
  [lit "-"; lit ""; lit "nan"; lit "None"].

Definition known_rows : list str :=
  [lit "Faktisk"; lit "Anslag PPR 3/25"; lit "Anslag PPR 4/25"].

(** The body of [for cell in row[1:]] in [_parse_monthly_table] and
    [_parse_quarterly_table]: the token appended to [values], if any. *)
Definition normalize_monthly (cell : Cell) : option str :=
  if truthy cell then
    let val := replace comma point (strip (py_str cell)) in
    let val := if in_list val missing_markers then lit "-" else val in
    Some val
  else None.

(** The body of [for cell in row[1:]] in [_parse_annual_table]. *)
Definition normalize_annual (cell : Cell) : option str :=
  if truthy cell then
    let val := replace comma point (strip (py_str cell)) in
    Some val
  else None.

Definition append_token (normalize : Cell -> option str)
  (values : list str) (cell : Cell) : list str :=
  match normalize cell with
  | Some val => values ++ [val]
  | None => values
  end.

(** [values = []; for cell in cells: ...] *)
Definition row_values (normalize : Cell -> option str) (cells : list Cell)
  : list str :=
  fold_left (append_token normalize) cells [].

(** The body of [for row in raw_table[1:]] in [_parse_monthly_table] and,
    with the same text, in [_parse_quarterly_table]. *)
Definition known_row_step (parsed : ParsedTable) (row : Row)
  : result ParsedTable :=
  if too_short row then Ok parsed
  else
    label <- subscript row 0 ;;
    let row_name := strip (py_str label) in
    if in_list row_name known_rows
    then Ok (dict_set row_name (row_values normalize_monthly (skipn 1 row)) parsed)
    else Ok parsed.

(** The body of [for row in raw_table[1:]] in [_parse_annual_table]. *)
Definition annual_row_step (parsed : ParsedTable) (row : Row)
  : result ParsedTable :=
  if too_short row then Ok parsed
  else
    label <- subscript row 0 ;;
    let var_name := strip (py_str label) in
    if nonempty var_name
    then Ok (dict_set var_name (row_values normalize_annual (skipn 1 row)) parsed)
    else Ok parsed.

Definition _parse_monthly_table (raw_table : RawGrid) (table_id : str)
  : result ParsedTable :=
  header_row <- match raw_table with
                | [] => Ok []
                | _ :: _ => subscript raw_table 0
                end ;;
  for_each known_row_step (skipn 1 raw_table) [].

Definition _parse_quarterly_table (raw_table : RawGrid) : result ParsedTable :=
  for_each known_row_step (skipn 1 raw_table) [].

Definition _parse_annual_table (raw_table : RawGrid) : result ParsedTable :=
  for_each annual_row_step (skipn 1 raw_table) [].

(* ------------------------------------------------------------------ *)
(** ** Pages and the five page scans *)

Record Page : Type := mkPage {
  extract_text : str;
  extract_tables : list RawGrid
}.

(** [self.tables] *)
Definition Tables := dict ParsedTable.

(** [for page_num, page in enumerate(pdf.pages, 1): if <cond>: ...; break],
    the loop the five [_find_table_*] methods share.  The [break] stands
    outside [if tables:], so the scan ends at the first page whose text
    passes, whether it has a grid or not. *)
Fixpoint scan_pages (cond : str -> bool) (key : str)
  (parser : RawGrid -> result ParsedTable)
  (pages : list Page) (tables : Tables) : result Tables :=
  match pages with
  | [] => Ok tables
  | page :: rest =>
      let text := extract_text page in
      if cond text then
        let grids := extract_tables page in
        match grids with
        | [] => Ok tables
        | _ :: _ =>
            grid <- subscript grids 0 ;;
            parsed <- parser grid ;;
            Ok (dict_set key parsed tables)
        end
      else scan_pages cond key parser rest tables
  end.

(** "sentrale størrelser": the letter ø is U+00F8. *)
Definition sentrale_storrelser : str :=
  lit "sentrale st" ++ [248%N] ++ lit "rrelser".

Definition cond_2a (text : str) : bool :=
  contains (lit "Tabell 2a") text && contains (lit "Konsumpriser") text.
Definition cond_2b (text : str) : bool :=
  contains (lit "Tabell 2b") text && contains (lit "Boligpriser") text.
Definition cond_2c (text : str) : bool :=
  contains (lit "Tabell 2c") text && contains (lit "ledighet") text.
Definition cond_2d (text : str) : bool :=
  contains (lit "Tabell 2d") text && contains (lit "BNP") text.
Definition cond_3 (text : str) : bool :=
  contains (lit "Tabell 3") text
  || (contains sentrale_storrelser text
      && contains (lit "BNP Fastlands-Norge") text).

Definition _find_table_2a (pdf : list Page) (tables : Tables) : result Tables :=
  scan_pages cond_2a (lit "2a")
    (fun grid => _parse_monthly_table grid (lit "2a")) pdf tables.
Definition _find_table_2b (pdf : list Page) (tables : Tables) : result Tables :=
  scan_pages cond_2b (lit "2b")
    (fun grid => _parse_monthly_table grid (lit "2b")) pdf tables.
Definition _find_table_2c (pdf : list Page) (tables : Tables) : result Tables :=
  scan_pages cond_2c (lit "2c")
    (fun grid => _parse_monthly_table grid (lit "2c")) pdf tables.
Definition _find_table_2d (pdf : list Page) (tables : Tables) : result Tables :=
  scan_pages cond_2d (lit "2d") _parse_quarterly_table pdf tables.
Definition _find_table_3 (pdf : list Page) (tables : Tables) : result Tables :=
  scan_pages cond_3 (lit "3") _parse_annual_table pdf tables.

(** [PPRParser.parse], on the pages of the opened document and the
    parser's [self.tables]. *)
Definition parse (pdf : list Page) (tables : Tables) : result Tables :=
  tables <- _find_table_2a pdf tables ;;
  tables <- _find_table_2b pdf tables ;;
  tables <- _find_table_2c pdf tables ;;
  tables <- _find_table_2d pdf tables ;;
  tables <- _find_table_3 pdf tables ;;
  Ok tables.

(** [PPRParser(pdf_path).parse()]: [__init__] sets [self.tables = {}]. *)
Definition extract (pdf : list Page) : result Tables := parse pdf [].

(* ------------------------------------------------------------------ *)
(** ** Vocabulary of the statements *)

(** [sub] occurs in [s] as a literal substring. *)
Definition is_substring (sub s : str) : Prop :=
  exists pre post, s = pre ++ sub ++ post.

(** The label under which a row is filed: [str(row[0]).strip()]. *)
Definition row_label (row : Row) : str := strip (py_str (hd None row)).

(** What one pass of a row loop does to [parsed] when it cannot raise:
    [keep] is the test on the label, [normalize] the cell normaliser. *)
Definition select_row (keep : str -> bool) (normalize : Cell -> option str)
  (parsed : ParsedTable) (row : Row) : ParsedTable :=
  if too_short row then parsed
  else if keep (row_label row)
       then dict_set (row_label row) (row_values normalize (skipn 1 row)) parsed
       else parsed.

(** The tokens one cell contributes to [values]. *)
Definition tokens (normalize : Cell -> option str) (c : Cell) : list str :=
  match normalize c with
  | Some val => [val]
  | None => []
  end.

(** A normaliser yields a token exactly for the cells that pass
    [if cell:]. *)
Definition yields_on_truthy (normalize : Cell -> option str) : Prop :=
  forall c, (truthy c = true -> exists val, normalize c = Some val) /\
            (truthy c = false -> normalize c = None).

Definition is_known (label : str) : bool := in_list label known_rows.

(** [row] is retained, and filed under [label]. *)
Definition retained_as (keep : str -> bool) (label : str) (row : Row) : bool :=
  negb (too_short row) && keep (row_label row) && str_eqb (row_label row) label.

(** The last row of [rows] retained under [label]. *)
Definition last_retained (keep : str -> bool) (label : str) (rows : list Row)
  : option Row :=
  find (retained_as keep label) (rev rows).

(** The index of the first element passing [p]. *)
Fixpoint first_index {A} (p : A -> bool) (l : list A) : option nat :=
  match l with
  | [] => None
  | x :: l' => if p x then Some 0 else option_map S (first_index p l')
  end.

(** [r] is the lowest index of a page with property [P], or [None] when no
    page has it. *)
Definition lowest_page (P : Page -> Prop) (pages : list Page) (r : option nat)
  : Prop :=
  match r with
  | Some i =>
      exists page, nth_error pages i = Some page /\ P page /\
        forall j q, j < i -> nth_error pages j = Some q -> ~ P q
  | None => forall q, In q pages -> ~ P q
  end.

(** The page's text contains every phrase of [markers]. *)
Definition has_all_markers (markers : list str) (page : Page) : Prop :=
  forall m, In m markers -> is_substring m (extract_text page).

(** What a page scan does with the page it stopped at. *)
Definition on_page (key : str) (parser : RawGrid -> result ParsedTable)
  (page : Page) (tables : Tables) : result Tables :=
  match extract_tables page with
  | [] => Ok tables
  | grid :: _ => parsed <- parser grid ;; Ok (dict_set key parsed tables)
  end.

(** What a page scan does once the page is located at [r]. *)
Definition on_located (key : str) (parser : RawGrid -> result ParsedTable)
  (pages : list Page) (r : option nat) (tables : Tables) : result Tables :=
  match r with
  | None => Ok tables
  | Some i =>
      match nth_error pages i with
      | Some page => on_page key parser page tables
      | None => Ok tables
      end
  end.

(** The five tables the parser knows. *)
Inductive table_id : Type := T2a | T2b | T2c | T2d | T3.

Definition table_key (t : table_id) : str :=
  match t with
  | T2a => lit "2a" | T2b => lit "2b" | T2c => lit "2c" | T2d => lit "2d"
  | T3 => lit "3"
  end.

Definition table_cond (t : table_id) : str -> bool :=
  match t with
  | T2a => cond_2a | T2b => cond_2b | T2c => cond_2c | T2d => cond_2d
  | T3 => cond_3
  end.

Definition find_table (t : table_id) : list Page -> Tables -> result Tables :=
  match t with
  | T2a => _find_table_2a | T2b => _find_table_2b | T2c => _find_table_2c
  | T2d => _find_table_2d | T3 => _find_table_3
  end.


(** All substrings of a string, for deciding facts about a fixed text. *)
Fixpoint prefixes (s : str) : list str :=
  match s with
  | [] => [[]]
  | c :: s' => [] :: map (cons c) (prefixes s')
  end.

Fixpoint substrings (s : str) : list str :=
  prefixes s ++
  match s with
  | [] => []
  | _ :: s' => substrings s'
  end.

(* ------------------------------------------------------------------ *)
(** ** Concrete inputs *)

Definition cell (s : string) : Cell := Some (lit s).


(** A rectangular monthly grid with one null cell in its second row. *)
Definition grid_ragged_values : RawGrid :=
  [ [cell ""; cell "Jan"; cell "Feb"];
    [cell "Faktisk"; cell "2,1"; None];
    [cell "Anslag PPR 3/25"; cell "2,0"; cell "2,2"] ].

(** A grid whose first row carries a known label. *)
Definition grid_known_first_row : RawGrid :=
  [ [cell "Faktisk"; cell "2,1"; cell "2,3"] ].

(** The annual grid of the specification's example. *)
Definition grid_annual : RawGrid :=
  [ [cell "Variabel"; cell "2024"; cell "2025"];
    [cell "KPI"; cell "3,5"; cell "2,8"];
    [cell ""; cell ""; cell ""] ].

(** The whitelist grid of the specification's example. *)
Definition grid_monthly : RawGrid :=
  [ [cell ""; cell "Jan"; cell "Feb"];
    [cell "Faktisk"; cell "2,1"; cell "-"];
    [cell "Ukjent rad"; cell "9,9"; cell "9,9"] ].

Definition text_tabell_3 : str := lit "Tabell 3".
Definition text_appendix : str :=
  sentrale_storrelser ++ lit " " ++ lit "BNP Fastlands-Norge".
Definition text_common : str := lit "a el".

(** A page with the given text and one grid, empty. *)
Definition page_with_grid (text : str) : Page := mkPage text [[]].

Definition table_parser (t : table_id) : RawGrid -> result ParsedTable :=
  match t with
  | T2a => fun grid => _parse_monthly_table grid (lit "2a")
  | T2b => fun grid => _parse_monthly_table grid (lit "2b")
  | T2c => fun grid => _parse_monthly_table grid (lit "2c")
  | T2d => _parse_quarterly_table
  | T3 => _parse_annual_table
  end.

(** The cell normaliser of the parser of table [t]. *)
Definition table_normalizer (t : table_id) : Cell -> option str :=
  match t with
  | T3 => normalize_annual
  | _ => normalize_monthly
  end.

(** The label test of the parser of table [t]. *)
Definition table_keep (t : table_id) : str -> bool :=
  match t with
  | T3 => nonempty
  | _ => is_known
  end.

(** Every value sequence of [parsed] comes from a row of the grid after the
    first, of two columns or more, and has one token per cell of that row
    that is neither null nor empty. *)
Definition lengths_follow_cells (normalize : Cell -> option str)
  (raw_table : RawGrid) (parsed : ParsedTable) : Prop :=
  forall label values,
    dict_get label parsed = Some values ->
    exists row,
      In row (skipn 1 raw_table) /\
      2 <= List.length row /\
      row_label row = label /\
      values = row_values normalize (skipn 1 row) /\
      List.length values = List.length (filter truthy (skipn 1 row)) /\
      List.length values <= List.length row - 1 /\
      (forallb truthy (skipn 1 row) = true ->
       List.length values = List.length row - 1).

(** The rows after the first that are retained are in [parsed] once each
    label, with the values of the last row carrying the label; no other
    label is in [parsed]. *)
Definition files_rows_after_header (keep : str -> bool)
  (normalize : Cell -> option str) (raw_table : RawGrid)
  (parsed : ParsedTable) : Prop :=
  (forall label, keep label = false -> key_count label parsed = 0) /\
  (forall label, key_count label parsed <= 1) /\
  (forall label values,
     dict_get label parsed = Some values ->
     exists row, In row (skipn 1 raw_table) /\ 2 <= List.length row /\
       row_label row = label /\ keep label = true) /\
  (forall row,
     In row (skipn 1 raw_table) ->
     2 <= List.length row ->
     keep (row_label row) = true ->
     key_count (row_label row) parsed = 1 /\
     exists last,
       last_retained keep (row_label row) (skipn 1 raw_table) = Some last /\
       dict_get (row_label row) parsed =
       Some (row_values normalize (skipn 1 last))).

(** The scan for table [t] works on the lowest-indexed page with property
    [P], and on no page when there is none. *)
Definition selects_page_by (P : Page -> Prop) (t : table_id) : Prop :=
  forall pages tables, exists r,
    lowest_page P pages r /\
    find_table t pages tables =
    on_located (table_key t) (table_parser t) pages r tables.

(** The test of [_find_table_3] on a page's text. *)
Definition has_table_3_text (page : Page) : Prop :=
  is_substring (lit "Tabell 3") (extract_text page) \/
  (is_substring sentrale_storrelser (extract_text page) /\
   is_substring (lit "BNP Fastlands-Norge") (extract_text page)).

(* ------------------------------------------------------------------ *)
(** ** Readings of the specification that the code does not meet

    Each is stated here as the specification words it and refuted below. *)


(** In a grid of [columns] columns, any two value sequences of the parsed
    table have the same length. *)
Definition value_rows_have_equal_length : Prop :=
  forall raw_table table_id parsed columns l1 l2 v1 v2,
    (forall row, In row raw_table -> List.length row = columns) ->
    _parse_monthly_table raw_table table_id = Ok parsed ->
    dict_get l1 parsed = Some v1 ->
    dict_get l2 parsed = Some v2 ->
    List.length v1 = List.length v2.

(** Every page scan is a locator by required marker phrases: for each table
    some list of phrases exists such that, on every document, the scan works
    on the lowest-indexed page containing all of them, and on no page when
    there is none. *)
Definition every_scan_locates_by_required_markers : Prop :=
  forall t, exists markers : list str,
    selects_page_by (has_all_markers markers) t.

(** Every row of the grid with two columns or more and a known label is in
    the parsed table, once. *)
Definition known_rows_all_included : Prop :=
  forall raw_table table_id parsed row,
    _parse_monthly_table raw_table table_id = Ok parsed ->
    In row raw_table ->
    2 <= List.length row ->
    is_known (row_label row) = true ->
    key_count (row_label row) parsed = 1.

(** Every row of the grid with two columns or more and a non-empty label,
    the first row included, is in the parsed annual table. *)
Definition labelled_rows_all_kept : Prop :=
  forall raw_table parsed row,
    _parse_annual_table raw_table = Ok parsed ->
    In row raw_table ->
    2 <= List.length row ->
    nonempty (row_label row) = true ->
    key_count (row_label row) parsed = 1.

(** Extraction from a document without pages raises. *)
Definition empty_document_raises : Prop :=
  exists e, extract [] = Raise e.



(* ------------------------------------------------------------------ *)
(** ** Further vocabulary: parsed tables and documents *)

(** A token as the monthly and quarterly parsers leave it: not empty, with
    no white space around it, without comma, and either ["-"] or none of
    the strings that stand for missing data. *)
Definition clean_token (val : str) : Prop :=
  val <> [] /\ strip val = val /\ ~ In comma val /\
  (val = lit "-" \/ in_list val missing_markers = false).

(** [row] passes the tests of a row loop whose label test is [keep]. *)
Definition retained (keep : str -> bool) (row : Row) : bool :=
  negb (too_short row) && keep (row_label row).

Definition str_eq_dec : forall a b : str, {a = b} + {a <> b} :=
  list_eq_dec N.eq_dec.

(** The labels of the retained rows in order of first appearance. *)
Definition labels_in_order (keep : str -> bool) (rows : list Row) : list str :=
  rev (nodup str_eq_dec (rev (map row_label (filter (retained keep) rows)))).

Definition all_tables : list table_id := [T2a; T2b; T2c; T2d; T3].

(** The page the scan for table [t] stops at: the first whose text passes
    the table's test. *)
Definition located_page (t : table_id) (pages : list Page) : option Page :=
  find (fun page => table_cond t (extract_text page)) pages.

(** What the scan for table [t] files, if anything: the parse of the first
    grid of the located page. *)
Definition table_entry (t : table_id) (pages : list Page)
  : option ParsedTable :=
  match located_page t pages with
  | Some page =>
      match extract_tables page with
      | grid :: _ =>
          match table_parser t grid with
          | Ok parsed => Some parsed
          | Raise _ => None
          end
      | [] => None
      end
  | None => None
  end.

(** The entries of a document, table by table in the order of the scans. *)
Definition entries (pages : list Page) : Tables :=
  flat_map (fun t => match table_entry t pages with
                     | Some parsed => [(table_key t, parsed)]
                     | None => []
                     end) all_tables.

(* ------------------------------------------------------------------ *)
(** ** The publication calendar: [get_next_ppr_info]

    [date.today()] reads the clock; the date it returns is an argument
    here.  The exceptions of this part of the script are those of a missing
    dictionary key and of [date(...)] on values that are no date. *)

Inductive py_error : Type := KeyError | ValueError.

Inductive outcome (A : Type) : Type :=
| Returned (a : A)
| Raised (e : py_error).

Arguments Returned {A} a.
Arguments Raised {A} e.

Definition and_then {A B} (m : outcome A) (k : A -> outcome B) : outcome B :=
  match m with
  | Returned a => k a
  | Raised e => Raised e
  end.

Notation "x <~ m ;; k" := (and_then m (fun x => k))
  (at level 61, m at next level, right associativity).

(** A [datetime.date]. *)
Record date : Type := mkDate { year : Z; month : Z; day : Z }.

Definition is_leap (y : Z) : bool :=
  ((y mod 4 =? 0) && (negb (y mod 100 =? 0) || (y mod 400 =? 0)))%Z.

Definition days_in_month (y m : Z) : Z :=
  (if m =? 2 then (if is_leap y then 29 else 28)
   else if (m =? 4) || (m =? 6) || (m =? 9) || (m =? 11) then 30
   else 31)%Z.

(** [date(y, m, d)]: [ValueError] unless [1 <= y <= 9999], [1 <= m <= 12]
    and [d] is a day of that month. *)
Definition date_new (y m d : Z) : outcome date :=
  if ((1 <=? y) && (y <=? 9999) && (1 <=? m) && (m <=? 12)
      && (1 <=? d) && (d <=? days_in_month y m))%Z
  then Returned (mkDate y m d)
  else Raised ValueError.

(** [a <= b] on dates: by year, then month, then day. *)
Definition date_le (a b : date) : bool :=
  ((year a <? year b)
   || ((year a =? year b)
       && ((month a <? month b)
           || ((month a =? month b) && (day a <=? day b)))))%Z.

(** [a >= b] and [a > b]. *)
Definition date_ge (a b : date) : bool := date_le b a.
Definition date_gt (a b : date) : bool := negb (date_le a b).

(** [ppr_schedule] *)
Definition ppr_schedule : list (Z * (Z * Z)) :=
  [(1, (3, 20)); (2, (6, 20)); (3, (9, 20)); (4, (12, 20))]%Z.

(** [ppr_schedule[quarter]] *)
Fixpoint schedule_get (schedule : list (Z * (Z * Z))) (quarter : Z)
  : outcome (Z * Z) :=
  match schedule with
  | [] => Raised KeyError
  | (q, md) :: rest =>
      if (q =? quarter)%Z then Returned md else schedule_get rest quarter
  end.

(** [for quarter in quarters: ...; return ...], followed by [after] when no
    quarter returns. *)
Fixpoint first_release (today : date) (year : Z) (quarters : list Z)
  (after : outcome (Z * Z * date)) : outcome (Z * Z * date) :=
  match quarters with
  | [] => after
  | quarter :: rest =>
      md <~ schedule_get ppr_schedule quarter ;;
      let (ppr_month, ppr_day) := md in
      ppr_date <~ date_new year ppr_month ppr_day ;;
      if date_ge ppr_date today
      then Returned (year, quarter, ppr_date)
      else first_release today year rest after
  end.

Definition get_next_ppr_info (today : date) : outcome (Z * Z * date) :=
  let year := year today in
  let month := month today in
  first_release today year [1; 2; 3; 4]%Z
    (next <~ date_new (year + 1) 3 20 ;;
     Returned ((year + 1)%Z, 1%Z, next)).

(** What [main] does when no file is named on the command line, up to the
    point where it leaves ([sys.exit(0)], nothing fetched) or calls
    [download_ppr_pdf(year, quarter)].  Its printing is left out.  The clock
    is read twice: [today_info] inside [get_next_ppr_info], [today] in
    [main] itself. *)
Inductive auto_action : Type :=
| Wait (year quarter : Z) (expected_date : date)
| Fetch (year quarter : Z).

Definition main_without_argument (today_info today : date)
  : outcome auto_action :=
  info <~ get_next_ppr_info today_info ;;
  let '(year, quarter, expected_date) := info in
  if date_gt expected_date today
  then Returned (Wait year quarter expected_date)
  else Returned (Fetch year quarter).

(** [today] is a date: [date(...)] accepts its fields. *)
Definition is_date (today : date) : Prop :=
  date_new (year today) (month today) (day today) = Returned today.

(** The dates of the publication plan: the 20th of March, June, September
    and December of a year. *)
Definition release_date (y q : Z) : date := mkDate y (3 * q) 20.

(* ------------------------------------------------------------------ *)
(** ** [build_ppr_url] *)

Definition slash : char := 47%N.

(** The number of decimal digits of an [int], its sign left out. *)
Definition count_digits (n : Z) : nat :=
  match Z.to_int n with
  | Decimal.Pos d => Decimal.nb_digits d
  | Decimal.Neg d => Decimal.nb_digits d
  end.

(** [str(n)] for an [int], under the interpreter's limit on the digits of
    an integer converted to text ([sys.get_int_max_str_digits()]): 4300 by
    default from Python 3.11 on, and [0] for no limit, which is also how
    earlier interpreters behave.  An [int] with more digits than the limit
    raises [ValueError]. *)
Definition str_of_int (max_str_digits : nat) (n : Z) : outcome str :=
  if (0 <? max_str_digits) && (max_str_digits <? count_digits n)
  then Raised ValueError
  else Returned (lit (NilEmpty.string_of_int (Z.to_int n))).

Definition default_max_str_digits : nat := 4300.

Definition base_url : str :=
  lit "https://www.norges-bank.no/aktuelt/nyheter-og-hendelser/Publikasjoner/Pengepolitisk-rapport-med-vurdering-av-finansiell-stabilitet".

(** [f"{base_url}/{year}/ppr-{quarter}{year}/"]: the fields are converted
    from left to right. *)
Definition build_ppr_url (max_str_digits : nat) (year quarter : Z)
  : outcome str :=
  year1 <~ str_of_int max_str_digits year ;;
  quarter1 <~ str_of_int max_str_digits quarter ;;
  year2 <~ str_of_int max_str_digits year ;;
  Returned (base_url ++ lit "/" ++ year1 ++ lit "/ppr-"
              ++ quarter1 ++ year2 ++ lit "/").

(** [n] has no more digits than the limit allows. *)
Definition fits (max_str_digits : nat) (n : Z) : Prop :=
  max_str_digits = 0 \/ count_digits n <= max_str_digits.

(* ================================================================== *)
(** * Strings *)

Lemma str_eqb_eq (a b : str) : str_eqb a b = true <-> a = b.
Proof.
  revert b; induction a as [|x a IH]; intros [|y b]; simpl;
    try (split; [discriminate | congruence]); try tauto.
  rewrite andb_true_iff, N.eqb_eq, IH. split.
  - intros [-> ->]; reflexivity.
  - intros H; inversion H; auto.
Qed.

Lemma str_eqb_refl (a : str) : str_eqb a a = true.
Proof. apply str_eqb_eq; reflexivity. Qed.

Lemma str_eqb_neq (a b : str) : str_eqb a b = false <-> a <> b.
Proof.
  rewrite <- str_eqb_eq. destruct (str_eqb a b); split; congruence.
Qed.

Lemma str_eqb_sym (a b : str) : str_eqb a b = str_eqb b a.
Proof.
  destruct (str_eqb a b) eqn:E.
  - apply str_eqb_eq in E; subst; symmetry; apply str_eqb_refl.
  - destruct (str_eqb b a) eqn:E'; auto.
    apply str_eqb_eq in E'; subst. rewrite str_eqb_refl in E; discriminate.
Qed.

Lemma in_list_In (x : str) (l : list str) : in_list x l = true <-> In x l.
Proof.
  unfold in_list. rewrite existsb_exists. split.
  - intros [y [Hy E]]. apply str_eqb_eq in E; subst; auto.
  - intros H; exists x; split; auto using str_eqb_refl.
Qed.

(** *** strip *)

Lemma lstrip_app (a b : str) :
  lstrip (a ++ b) =
  match lstrip a with
  | [] => lstrip b
  | c :: r => (c :: r) ++ b
  end.
Proof.
  induction a as [|x a IH]; simpl.
  - reflexivity.
  - destruct (isspace x); auto.
Qed.

Lemma lstrip_head (s : str) :
  match lstrip s with
  | [] => True
  | c :: _ => isspace c = false
  end.
Proof.
  induction s as [|x s IH]; simpl; auto.
  destruct (isspace x) eqn:E; auto.
Qed.

Lemma lstrip_fixed (c : char) (s : str) :
  isspace c = false -> lstrip (c :: s) = c :: s.
Proof. intros H; simpl; rewrite H; reflexivity. Qed.

Lemma lstrip_idem (s : str) : lstrip (lstrip s) = lstrip s.
Proof.
  pose proof (lstrip_head s) as H.
  destruct (lstrip s) as [|c r]; auto using lstrip_fixed.
Qed.

Lemma rstrip_cons (c : char) (s : str) :
  rstrip (c :: s) =
  match rstrip s with
  | [] => if isspace c then [] else [c]
  | x :: r => c :: x :: r
  end.
Proof.
  unfold rstrip; simpl. rewrite lstrip_app.
  destruct (lstrip (rev s)) as [|y r] eqn:E; simpl.
  - destruct (isspace c); reflexivity.
  - rewrite rev_app_distr; simpl.
    destruct (rev r ++ [y]) eqn:E'; auto.
    destruct (rev r); discriminate.
Qed.

Lemma rstrip_idem (s : str) : rstrip (rstrip s) = rstrip s.
Proof.
  unfold rstrip. rewrite rev_involutive, lstrip_idem; reflexivity.
Qed.

Lemma lstrip_rstrip_fixed (s : str) :
  lstrip s = s -> lstrip (rstrip s) = rstrip s.
Proof.
  intros H. pose proof (lstrip_head s) as Hh. rewrite H in Hh.
  destruct s as [|c s]; [reflexivity|].
  rewrite rstrip_cons. destruct (rstrip s).
  - rewrite Hh. simpl. rewrite Hh. reflexivity.
  - apply lstrip_fixed; assumption.
Qed.

Lemma strip_idem (s : str) : strip (strip s) = strip s.
Proof.
  unfold strip.
  rewrite (lstrip_rstrip_fixed (lstrip s) (lstrip_idem s)).
  apply rstrip_idem.
Qed.

(** *** replace *)

Lemma isspace_replace (c : char) :
  isspace (if (c =? comma)%N then point else c) = isspace c.
Proof.
  destruct (c =? comma)%N eqn:E; auto.
  apply N.eqb_eq in E; subst; reflexivity.
Qed.

Lemma lstrip_replace (s : str) :
  lstrip (replace comma point s) = replace comma point (lstrip s).
Proof.
  induction s as [|c s IH]; simpl; auto.
  rewrite isspace_replace. destruct (isspace c); auto.
Qed.

Lemma rev_replace (s : str) :
  rev (replace comma point s) = replace comma point (rev s).
Proof. unfold replace. symmetry. apply map_rev. Qed.

Lemma rstrip_replace (s : str) :
  rstrip (replace comma point s) = replace comma point (rstrip s).
Proof.
  unfold rstrip. rewrite rev_replace, lstrip_replace, rev_replace.
  reflexivity.
Qed.

Lemma strip_replace (s : str) :
  strip (replace comma point s) = replace comma point (strip s).
Proof. unfold strip. rewrite lstrip_replace, rstrip_replace; reflexivity. Qed.

Lemma replace_idem (s : str) :
  replace comma point (replace comma point s) = replace comma point s.
Proof.
  unfold replace. rewrite map_map. apply map_ext. intros c.
  destruct (c =? comma)%N eqn:E; auto. rewrite E; reflexivity.
Qed.

Lemma replace_no_comma (s : str) : ~ In comma (replace comma point s).
Proof.
  unfold replace. rewrite in_map_iff. intros [c [E _]].
  destruct (c =? comma)%N eqn:Ec.
  - discriminate.
  - apply N.eqb_neq in Ec; congruence.
Qed.


(** *** Substrings *)

Lemma startswith_iff (s p : str) :
  startswith s p = true <-> exists post, s = p ++ post.
Proof.
  revert s; induction p as [|x p IH]; intros s; simpl.
  - split; eauto.
  - destruct s as [|c s].
    + split; [discriminate | intros [post E]; discriminate].
    + rewrite andb_true_iff, N.eqb_eq, IH. split.
      * intros [-> [post ->]]; eauto.
      * intros [post E]; inversion E; eauto.
Qed.

Lemma contains_iff (sub s : str) :
  contains sub s = true <-> is_substring sub s.
Proof.
  unfold is_substring. induction s as [|c s IH]; simpl.
  - rewrite orb_false_r, startswith_iff. split.
    + intros [post E]; exists [], post; assumption.
    + intros [pre [post E]]. destruct pre; [eauto | discriminate].
  - rewrite orb_true_iff, startswith_iff, IH. split.
    + intros [[post E] | [pre [post E]]].
      * exists [], post; assumption.
      * exists (c :: pre), post; simpl; congruence.
    + intros [[|x pre] [post E]]; simpl in E.
      * left; eauto.
      * right; inversion E; eauto.
Qed.

Lemma contains_false_iff (sub s : str) :
  contains sub s = false <-> ~ is_substring sub s.
Proof.
  rewrite <- contains_iff. destruct (contains sub s); split; congruence.
Qed.

Lemma prefixes_app (p post : str) : In p (prefixes (p ++ post)).
Proof.
  induction p as [|c p IH]; simpl.
  - destruct post; simpl; auto.
  - right. apply in_map; assumption.
Qed.

Lemma substrings_prefixes (p s : str) :
  In p (prefixes s) -> In p (substrings s).
Proof.
  intros H. destruct s; [exact H |].
  simpl. simpl in H. destruct H as [H | H]; auto.
  right. apply in_or_app; left; exact H.
Qed.

Lemma substrings_tail (x : str) (c : char) (s : str) :
  In x (substrings s) -> In x (substrings (c :: s)).
Proof. intros H. simpl. right. apply in_or_app; right. exact H. Qed.

Lemma substrings_complete (sub s : str) :
  is_substring sub s -> In sub (substrings s).
Proof.
  intros [pre [post ->]]. induction pre as [|c pre IH].
  - simpl. apply substrings_prefixes, (prefixes_app sub post).
  - simpl. apply substrings_tail, IH.
Qed.

(* ================================================================== *)
(** * Dictionaries *)

Section Dict.
Context {V : Type}.
Implicit Types (d : dict V) (k l : str) (v : V).

Lemma dict_get_set k v d l :
  dict_get l (dict_set k v d) = if str_eqb k l then Some v else dict_get l d.
Proof.
  induction d as [|[k' v'] d IH]; simpl.
  - rewrite (str_eqb_sym l k). reflexivity.
  - destruct (str_eqb k k') eqn:Ekk'; simpl.
    + apply str_eqb_eq in Ekk'; subst k'.
      rewrite (str_eqb_sym l k). destruct (str_eqb k l); reflexivity.
    + rewrite IH. destruct (str_eqb l k') eqn:Elk'; auto.
      apply str_eqb_eq in Elk'; subst k'. rewrite Ekk'; reflexivity.
Qed.

Lemma key_count_cons k k' v d :
  key_count k ((k', v) :: d) =
  (if str_eqb k k' then 1 else 0) + key_count k d.
Proof. unfold key_count; simpl. destruct (str_eqb k k'); reflexivity. Qed.

Lemma key_count_set k v d l :
  key_count l (dict_set k v d) =
  if str_eqb k l then Nat.max 1 (key_count l d) else key_count l d.
Proof.
  induction d as [|[k' v'] d IH]; simpl.
  - rewrite key_count_cons, (str_eqb_sym l k).
    destruct (str_eqb k l); reflexivity.
  - destruct (str_eqb k k') eqn:Ekk'.
    + rewrite !key_count_cons. apply str_eqb_eq in Ekk'; subst k'.
      rewrite (str_eqb_sym l k). destruct (str_eqb k l); simpl; auto.
    + rewrite !key_count_cons, IH.
      destruct (str_eqb k l) eqn:Ekl; auto.
      apply str_eqb_eq in Ekl; subst l. rewrite Ekk'. reflexivity.
Qed.

Lemma key_count_In k d : 0 < key_count k d <-> In k (dict_keys d).
Proof.
  induction d as [|[k' v'] d IH].
  - simpl; split; [intros H; inversion H | tauto].
  - rewrite key_count_cons. simpl. destruct (str_eqb k k') eqn:E.
    + apply str_eqb_eq in E; subst. split; auto. intros _; simpl; lia.
    + apply str_eqb_neq in E. simpl. rewrite IH. split; auto.
      intros [H | H]; congruence.
Qed.

Lemma dict_get_None_count k d : dict_get k d = None <-> key_count k d = 0.
Proof.
  induction d as [|[k' v'] d IH]; simpl.
  - unfold key_count; simpl; tauto.
  - rewrite key_count_cons. destruct (str_eqb k k').
    + split; [discriminate | simpl; discriminate].
    + exact IH.
Qed.
End Dict.

(* ================================================================== *)
(** * Loops never raise *)

Lemma for_each_ok {A S} (body : S -> A -> result S) (f : S -> A -> S) :
  (forall s x, body s x = Ok (f s x)) ->
  forall xs s, for_each body xs s = Ok (fold_left f xs s).
Proof.
  intros H xs; induction xs as [|x xs IH]; intros s; simpl.
  - reflexivity.
  - rewrite H; simpl. apply IH.
Qed.

Lemma subscript_head {A} (x : A) (l : list A) : subscript (x :: l) 0 = Ok x.
Proof. reflexivity. Qed.

Lemma too_short_length (row : Row) :
  too_short row = false <-> 2 <= List.length row.
Proof.
  destruct row as [|c row]; simpl.
  - split; [discriminate | lia].
  - destruct row; simpl; split; intros; try discriminate; try lia; auto.
Qed.

Lemma known_row_step_ok (parsed : ParsedTable) (row : Row) :
  known_row_step parsed row =
  Ok (select_row is_known normalize_monthly parsed row).
Proof.
  unfold known_row_step, select_row, row_label, is_known.
  destruct row as [|c row]; [reflexivity|].
  destruct (too_short (c :: row)); [reflexivity|].
  rewrite subscript_head; unfold bind, hd.
  destruct (in_list (strip (py_str c)) known_rows); reflexivity.
Qed.

Lemma annual_row_step_ok (parsed : ParsedTable) (row : Row) :
  annual_row_step parsed row =
  Ok (select_row nonempty normalize_annual parsed row).
Proof.
  unfold annual_row_step, select_row, row_label.
  destruct row as [|c row]; [reflexivity|].
  destruct (too_short (c :: row)); [reflexivity|].
  rewrite subscript_head; unfold bind, hd.
  destruct (nonempty (strip (py_str c))); reflexivity.
Qed.

Lemma parse_monthly_ok (raw_table : RawGrid) (table_id : str) :
  _parse_monthly_table raw_table table_id =
  Ok (fold_left (select_row is_known normalize_monthly) (skipn 1 raw_table) []).
Proof.
  unfold _parse_monthly_table.
  destruct raw_table as [|header rows]; simpl.
  - reflexivity.
  - apply (for_each_ok _ _ known_row_step_ok).
Qed.

Lemma parse_quarterly_ok (raw_table : RawGrid) :
  _parse_quarterly_table raw_table =
  Ok (fold_left (select_row is_known normalize_monthly) (skipn 1 raw_table) []).
Proof. apply (for_each_ok _ _ known_row_step_ok). Qed.

Lemma parse_annual_ok (raw_table : RawGrid) :
  _parse_annual_table raw_table =
  Ok (fold_left (select_row nonempty normalize_annual) (skipn 1 raw_table) []).
Proof. apply (for_each_ok _ _ annual_row_step_ok). Qed.

Lemma table_parser_ok (t : table_id) (grid : RawGrid) :
  exists parsed, table_parser t grid = Ok parsed.
Proof.
  destruct t; simpl; eexists;
    first [apply parse_monthly_ok | apply parse_quarterly_ok
          | apply parse_annual_ok].
Qed.

(* ================================================================== *)
(** * What a row loop leaves in the parsed table *)

Section RowLoop.
Variable keep : str -> bool.
Variable normalize : Cell -> option str.

Let step := select_row keep normalize.
Let values (row : Row) := row_values normalize (skipn 1 row).

Lemma get_select_row (d : ParsedTable) (row : Row) (l : str) :
  dict_get l (step d row) =
  if retained_as keep l row then Some (values row) else dict_get l d.
Proof.
  unfold step, select_row, retained_as.
  destruct (too_short row); simpl; auto.
  destruct (keep (row_label row)); simpl; auto.
  apply dict_get_set.
Qed.

Lemma count_select_row (d : ParsedTable) (row : Row) (l : str) :
  key_count l (step d row) =
  if retained_as keep l row then Nat.max 1 (key_count l d)
  else key_count l d.
Proof.
  unfold step, select_row, retained_as.
  destruct (too_short row); simpl; auto.
  destruct (keep (row_label row)); simpl; auto.
  apply key_count_set.
Qed.

Lemma find_app_last {A} (p : A -> bool) (l : list A) (x : A) :
  find p (l ++ [x]) =
  match find p l with
  | Some y => Some y
  | None => if p x then Some x else None
  end.
Proof.
  induction l as [|y l IH]; simpl.
  - reflexivity.
  - destruct (p y); auto.
Qed.

Lemma get_row_loop (rows : list Row) (d : ParsedTable) (l : str) :
  dict_get l (fold_left step rows d) =
  match last_retained keep l rows with
  | Some row => Some (values row)
  | None => dict_get l d
  end.
Proof.
  revert d; induction rows as [|row rows IH]; intros d; simpl.
  - reflexivity.
  - rewrite IH. unfold last_retained; simpl. rewrite find_app_last.
    destruct (find (retained_as keep l) (rev rows)); auto.
    rewrite get_select_row. destruct (retained_as keep l row); reflexivity.
Qed.

Lemma count_row_loop (rows : list Row) (d : ParsedTable) (l : str) :
  key_count l (fold_left step rows d) =
  if existsb (retained_as keep l) rows then Nat.max 1 (key_count l d)
  else key_count l d.
Proof.
  revert d; induction rows as [|row rows IH]; intros d;
    cbn [fold_left existsb].
  - reflexivity.
  - rewrite IH, count_select_row.
    destruct (retained_as keep l row);
      destruct (existsb (retained_as keep l) rows); cbn [orb]; lia.
Qed.

Lemma last_retained_some (rows : list Row) (l : str) (row : Row) :
  last_retained keep l rows = Some row ->
  In row rows /\ 2 <= List.length row /\ keep l = true /\ row_label row = l.
Proof.
  unfold last_retained. intros H. apply find_some in H as [Hin H].
  apply in_rev in Hin. unfold retained_as in H.
  apply andb_true_iff in H as [H E]. apply andb_true_iff in H as [S K].
  apply str_eqb_eq in E. apply negb_true_iff, too_short_length in S.
  subst l; auto.
Qed.

Lemma last_retained_exists (rows : list Row) (row : Row) :
  In row rows -> 2 <= List.length row -> keep (row_label row) = true ->
  existsb (retained_as keep (row_label row)) rows = true /\
  exists last, last_retained keep (row_label row) rows = Some last.
Proof.
  intros Hin Hlen Hkeep.
  assert (R : retained_as keep (row_label row) row = true).
  { unfold retained_as. apply too_short_length in Hlen.
    rewrite Hlen, Hkeep, str_eqb_refl; reflexivity. }
  split.
  - apply existsb_exists; eauto.
  - unfold last_retained.
    destruct (find (retained_as keep (row_label row)) (rev rows)) eqn:F.
    + eauto.
    + apply in_rev in Hin. rewrite (find_none _ _ F row Hin) in R.
      discriminate.
Qed.

Lemma row_loop_skips_short (rows : list Row) (d : ParsedTable) :
  fold_left step (filter (fun row => negb (too_short row)) rows) d =
  fold_left step rows d.
Proof.
  revert d; induction rows as [|row rows IH]; intros d; simpl.
  - reflexivity.
  - destruct (too_short row) eqn:E; simpl.
    + rewrite IH. unfold step at 3, select_row. rewrite E. reflexivity.
    + apply IH.
Qed.
End RowLoop.

(* ================================================================== *)
(** * What a cell loop leaves in [values] *)

Lemma row_values_acc (normalize : Cell -> option str) (cells : list Cell)
  (acc : list str) :
  fold_left (append_token normalize) cells acc =
  acc ++ flat_map (tokens normalize) cells.
Proof.
  revert acc; induction cells as [|c cells IH]; intros acc; simpl.
  - rewrite app_nil_r; reflexivity.
  - rewrite IH. unfold append_token, tokens.
    destruct (normalize c); simpl.
    + rewrite <- app_assoc; reflexivity.
    + reflexivity.
Qed.

Lemma row_values_flat_map (normalize : Cell -> option str) (cells : list Cell) :
  row_values normalize cells = flat_map (tokens normalize) cells.
Proof. unfold row_values. apply row_values_acc. Qed.



Lemma monthly_yields_on_truthy : yields_on_truthy normalize_monthly.
Proof.
  intros c; unfold normalize_monthly; destruct (truthy c); split;
    intros; try discriminate; eauto.
Qed.

Lemma annual_yields_on_truthy : yields_on_truthy normalize_annual.
Proof.
  intros c; unfold normalize_annual; destruct (truthy c); split;
    intros; try discriminate; eauto.
Qed.

Lemma row_values_length (normalize : Cell -> option str) (cells : list Cell) :
  yields_on_truthy normalize ->
  List.length (row_values normalize cells) =
  List.length (filter truthy cells).
Proof.
  intros Y. rewrite row_values_flat_map.
  induction cells as [|c cells IH]; simpl; auto.
  rewrite length_app, IH. unfold tokens.
  destruct (Y c) as [Yt Yf]. destruct (truthy c).
  - destruct Yt as [val ->]; reflexivity.
  - rewrite Yf; reflexivity.
Qed.

Lemma filter_length_le {A} (p : A -> bool) (l : list A) :
  List.length (filter p l) <= List.length l.
Proof.
  induction l as [|x l IH]; simpl; auto. destruct (p x); simpl; lia.
Qed.

Lemma filter_all {A} (p : A -> bool) (l : list A) :
  forallb p l = true -> filter p l = l.
Proof.
  induction l as [|x l IH]; simpl; auto.
  intros H; apply andb_true_iff in H as [-> H]. rewrite IH; auto.
Qed.

(* ================================================================== *)
(** * Page scans *)

Section Scan.
Variable cond : str -> bool.
Variable key : str.
Variable parser : RawGrid -> result ParsedTable.

Let passes (page : Page) : bool := cond (extract_text page).

Lemma on_located_S (page : Page) (rest : list Page) (r : option nat)
  (tables : Tables) :
  on_located key parser (page :: rest) (option_map S r) tables =
  on_located key parser rest r tables.
Proof. destruct r; reflexivity. Qed.

Lemma scan_first_index (pages : list Page) (tables : Tables) :
  scan_pages cond key parser pages tables =
  on_located key parser pages (first_index passes pages) tables.
Proof.
  induction pages as [|page rest IH]; simpl.
  - reflexivity.
  - unfold passes at 1. destruct (cond (extract_text page)).
    + simpl. unfold on_page. destruct (extract_tables page); reflexivity.
    + rewrite on_located_S. exact IH.
Qed.

Lemma first_index_lowest (P : Page -> Prop) (pages : list Page) :
  (forall page, passes page = true <-> P page) ->
  lowest_page P pages (first_index passes pages).
Proof.
  intros HP. induction pages as [|page rest IH]; simpl.
  - intros q [].
  - destruct (passes page) eqn:E.
    + exists page. repeat split.
      * apply HP; exact E.
      * intros j q Hj; inversion Hj.
    + assert (NP : ~ P page).
      { intros H; apply HP in H; congruence. }
      destruct (first_index passes rest) as [i|]; simpl in *.
      * destruct IH as [pg [Hn [Hp Hl]]]. exists pg. repeat split; auto.
        intros [|j] q Hj Hq; simpl in Hq.
        -- inversion Hq; subst; exact NP.
        -- apply (Hl j q); [lia | exact Hq].
      * intros q [<- | Hq]; auto.
Qed.

Lemma scan_no_match (pages : list Page) (tables : Tables) :
  (forall page, In page pages -> passes page = false) ->
  scan_pages cond key parser pages tables = Ok tables.
Proof.
  induction pages as [|page rest IH]; simpl; intros H.
  - reflexivity.
  - pose proof (H page (or_introl eq_refl)) as E. unfold passes in E.
    rewrite E. apply IH. intros q Hq; apply H; right; exact Hq.
Qed.

Lemma scan_stops_at_gridless (pre post : list Page) (page : Page)
  (tables : Tables) :
  (forall q, In q pre -> passes q = false) ->
  passes page = true ->
  extract_tables page = [] ->
  scan_pages cond key parser (pre ++ page :: post) tables = Ok tables.
Proof.
  intros Hpre Hpage Hgrids. induction pre as [|q pre IH]; simpl.
  - unfold passes in Hpage. rewrite Hpage, Hgrids. reflexivity.
  - pose proof (Hpre q (or_introl eq_refl)) as E. unfold passes in E.
    rewrite E. apply IH. intros q' Hq'; apply Hpre; right; exact Hq'.
Qed.

Lemma scan_frame (pages : list Page) (tables : Tables) :
  (forall grid, exists parsed, parser grid = Ok parsed) ->
  exists doc,
    scan_pages cond key parser pages tables = Ok doc /\
    (doc = tables \/ exists parsed, doc = dict_set key parsed tables).
Proof.
  intros Htotal. induction pages as [|page rest IH]; simpl.
  - eauto.
  - destruct (cond (extract_text page)); [|exact IH].
    destruct (extract_tables page) as [|grid grids]; [eauto|].
    rewrite subscript_head; simpl.
    destruct (Htotal grid) as [parsed ->]; simpl. eauto.
Qed.
End Scan.

Lemma find_table_scan (t : table_id) :
  find_table t = scan_pages (table_cond t) (table_key t) (table_parser t).
Proof. destruct t; reflexivity. Qed.

Lemma find_table_frame (t : table_id) (pages : list Page) (tables : Tables) :
  exists doc,
    find_table t pages tables = Ok doc /\
    (doc = tables \/
     exists parsed, doc = dict_set (table_key t) parsed tables).
Proof. rewrite find_table_scan. apply scan_frame, table_parser_ok. Qed.

Lemma table_keys_distinct (t t' : table_id) :
  t <> t' -> str_eqb (table_key t') (table_key t) = false.
Proof. destruct t, t'; intros H; try reflexivity; congruence. Qed.

Lemma table_id_eq_dec (t t' : table_id) : {t = t'} + {t <> t'}.
Proof. decide equality. Qed.

Lemma parse_steps (pages : list Page) (tables : Tables)
  (I : Tables -> Tables -> Prop) :
  (forall a, I a a) ->
  (forall a b c, I a b -> I b c -> I a c) ->
  (forall t a b, find_table t pages a = Ok b -> I a b) ->
  exists doc, parse pages tables = Ok doc /\ I tables doc.
Proof.
  intros Irefl Itrans Istep. unfold parse.
  destruct (find_table_frame T2a pages tables) as [d1 [E1 _]].
  destruct (find_table_frame T2b pages d1) as [d2 [E2 _]].
  destruct (find_table_frame T2c pages d2) as [d3 [E3 _]].
  destruct (find_table_frame T2d pages d3) as [d4 [E4 _]].
  destruct (find_table_frame T3 pages d4) as [d5 [E5 _]].
  pose proof (Istep _ _ _ E1). pose proof (Istep _ _ _ E2).
  pose proof (Istep _ _ _ E3). pose proof (Istep _ _ _ E4).
  pose proof (Istep _ _ _ E5).
  simpl in E1, E2, E3, E4, E5.
  rewrite E1; simpl. rewrite E2; simpl. rewrite E3; simpl.
  rewrite E4; simpl. rewrite E5; simpl.
  exists d5; split; eauto.
Qed.

Lemma cond_2a_iff (page : Page) :
  cond_2a (extract_text page) = true <->
  has_all_markers [lit "Tabell 2a"; lit "Konsumpriser"] page.
Proof.
  unfold cond_2a, has_all_markers.
  rewrite andb_true_iff, !contains_iff. split.
  - intros [A B] m [<- | [<- | []]]; assumption.
  - intros H; split; apply H; simpl; auto.
Qed.

Lemma cond_2b_iff (page : Page) :
  cond_2b (extract_text page) = true <->
  has_all_markers [lit "Tabell 2b"; lit "Boligpriser"] page.
Proof.
  unfold cond_2b, has_all_markers.
  rewrite andb_true_iff, !contains_iff. split.
  - intros [A B] m [<- | [<- | []]]; assumption.
  - intros H; split; apply H; simpl; auto.
Qed.

Lemma cond_2c_iff (page : Page) :
  cond_2c (extract_text page) = true <->
  has_all_markers [lit "Tabell 2c"; lit "ledighet"] page.
Proof.
  unfold cond_2c, has_all_markers.
  rewrite andb_true_iff, !contains_iff. split.
  - intros [A B] m [<- | [<- | []]]; assumption.
  - intros H; split; apply H; simpl; auto.
Qed.

Lemma cond_2d_iff (page : Page) :
  cond_2d (extract_text page) = true <->
  has_all_markers [lit "Tabell 2d"; lit "BNP"] page.
Proof.
  unfold cond_2d, has_all_markers.
  rewrite andb_true_iff, !contains_iff. split.
  - intros [A B] m [<- | [<- | []]]; assumption.
  - intros H; split; apply H; simpl; auto.
Qed.

Lemma cond_3_iff (page : Page) :
  cond_3 (extract_text page) = true <-> has_table_3_text page.
Proof.
  unfold cond_3, has_table_3_text.
  rewrite orb_true_iff, andb_true_iff, !contains_iff. tauto.
Qed.

Lemma selects_page_by_cond (P : Page -> Prop) (t : table_id) :
  (forall page, table_cond t (extract_text page) = true <-> P page) ->
  selects_page_by P t.
Proof.
  intros HP pages tables.
  exists (first_index (fun page => table_cond t (extract_text page)) pages).
  split.
  - apply first_index_lowest. exact HP.
  - rewrite find_table_scan. apply scan_first_index.
Qed.

(* ================================================================== *)
(** * Parsed tables *)

Lemma table_parser_fold (t : table_id) (raw_table : RawGrid) :
  table_parser t raw_table =
  Ok (fold_left (select_row (table_keep t) (table_normalizer t))
        (skipn 1 raw_table) []).
Proof.
  destruct t; simpl;
    first [apply parse_monthly_ok | apply parse_quarterly_ok
          | apply parse_annual_ok].
Qed.

Lemma table_normalizer_yields (t : table_id) :
  yields_on_truthy (table_normalizer t).
Proof.
  destruct t; simpl;
    auto using monthly_yields_on_truthy, annual_yields_on_truthy.
Qed.

Section ParsedRows.
Variable keep : str -> bool.
Variable normalize : Cell -> option str.
Hypothesis normalize_yields : yields_on_truthy normalize.

Let parsed_of (raw_table : RawGrid) : ParsedTable :=
  fold_left (select_row keep normalize) (skipn 1 raw_table) [].

Lemma values_lengths (row : Row) :
  let values := row_values normalize (skipn 1 row) in
  List.length values = List.length (filter truthy (skipn 1 row)) /\
  List.length values <= List.length row - 1 /\
  (forallb truthy (skipn 1 row) = true ->
   List.length values = List.length row - 1).
Proof.
  intros values. unfold values.
  rewrite (row_values_length _ _ normalize_yields).
  pose proof (filter_length_le truthy (skipn 1 row)) as F.
  rewrite length_skipn in F. repeat split; auto.
  intros A. rewrite (filter_all _ _ A), length_skipn. reflexivity.
Qed.

Lemma parsed_lengths (raw_table : RawGrid) :
  lengths_follow_cells normalize raw_table (parsed_of raw_table).
Proof.
  intros label values G. unfold parsed_of in G.
  rewrite get_row_loop in G.
  destruct (last_retained keep label (skipn 1 raw_table)) as [row|] eqn:L;
    [|discriminate].
  apply last_retained_some in L as [Hin [Hlen [_ Hlabel]]].
  destruct (values_lengths row) as [A [B C]].
  injection G as <-.
  exists row. repeat split; assumption.
Qed.

Lemma parsed_files_rows (raw_table : RawGrid) :
  files_rows_after_header keep normalize raw_table (parsed_of raw_table).
Proof.
  unfold parsed_of. split; [|split; [|split; [|intros row H H0 H1; split]]].
  - intros label K. rewrite count_row_loop.
    replace (existsb (retained_as keep label) (skipn 1 raw_table))
      with false; [reflexivity|].
    symmetry. apply not_true_is_false. intros E.
    apply existsb_exists in E as [row [_ R]]. unfold retained_as in R.
    apply andb_true_iff in R as [R E]. apply andb_true_iff in R as [_ R].
    apply str_eqb_eq in E; subst. congruence.
  - intros label. rewrite count_row_loop.
    destruct (existsb _ _); simpl; auto.
  - intros label values G. rewrite get_row_loop in G.
    destruct (last_retained keep label (skipn 1 raw_table)) as [row|] eqn:L;
      [|discriminate].
    apply last_retained_some in L. exists row. tauto.
  - destruct (last_retained_exists keep _ _ H H0 H1) as [E _].
    rewrite count_row_loop, E. reflexivity.
  - destruct (last_retained_exists keep _ _ H H0 H1) as [_ [last L]].
    exists last. split; auto. rewrite get_row_loop, L. reflexivity.
Qed.
End ParsedRows.

(* ================================================================== *)
(** * The examples of the specification *)

Example monthly_example :
  _parse_monthly_table grid_monthly (lit "2a") =
  Ok [(lit "Faktisk", [lit "2.1"; lit "-"])].
Proof. reflexivity. Qed.

Example annual_example :
  _parse_annual_table grid_annual =
  Ok [(lit "KPI", [lit "3.5"; lit "2.8"])].
Proof. reflexivity. Qed.

Example second_page_example :
  first_index (fun page => cond_2a (extract_text page))
    [mkPage (lit "Tabell 2a") []; mkPage (lit "Tabell 2a: Konsumpriser") []]
  = Some 1.
Proof. reflexivity. Qed.

(* ================================================================== *)
(** * The claims *)

(** ** C1: null cells *)




(** ** C2: lengths of the value sequences *)

(** C2, as stated, fails: [grid_ragged_values] has three columns in every
    row, and its parsed table files one value under "Faktisk" and two under
    "Anslag PPR 3/25". *)
Lemma C2_value_sequences_differ_in_length : ~ value_rows_have_equal_length.
Proof.
  intros H.
  assert (E : List.length [lit "2.1"] = List.length [lit "2.0"; lit "2.2"]).
  { apply (H grid_ragged_values (lit "2a")
             [(lit "Faktisk", [lit "2.1"]);
              (lit "Anslag PPR 3/25", [lit "2.0"; lit "2.2"])]
             3 (lit "Faktisk") (lit "Anslag PPR 3/25")); try reflexivity.
    intros row [<- | [<- | [<- | []]]]; reflexivity. }
  discriminate E.
Qed.

Lemma values_come_from_retained_rows (keep : str -> bool)
  (normalize : Cell -> option str) (rows : list Row)
  (label : str) (values : list str) :
  dict_get label (fold_left (select_row keep normalize) rows []) = Some values ->
  exists row,
    In row rows /\ too_short row = false /\ keep (row_label row) = true /\
    row_label row = label /\ values = row_values normalize (skipn 1 row).
Proof.
  rewrite get_row_loop. unfold last_retained.
  destruct (find (retained_as keep label) (rev rows)) as [row|] eqn:F;
    [|discriminate].
  intros G; injection G as <-. apply find_some in F as [Hin R].
  apply in_rev in Hin. unfold retained_as in R.
  apply andb_true_iff in R as [R E]. apply andb_true_iff in R as [S K].
  apply negb_true_iff in S. apply str_eqb_eq in E.
  exists row. auto.
Qed.

(** C2, amended: every parser returns a table, and each value sequence in
    it is that of a row after the first with two columns or more; its
    length is the number of cells after the label that are neither null nor
    empty, which is at most the row's column count minus one and equals it
    when no such cell is null or empty.  So when the retained rows all have
    the same number of columns and no null or empty cell after the label,
    all value sequences have equal length, that number minus one.  Rows of
    fewer than two columns leave no trace: the table is the one parsed from
    the grid without them. *)
Theorem C2_value_lengths_follow_cells (t : table_id) (raw_table : RawGrid) :
  exists parsed,
    table_parser t raw_table = Ok parsed /\
    lengths_follow_cells (table_normalizer t) raw_table parsed /\
    table_parser t
      (hd [] raw_table
         :: filter (fun row => negb (too_short row)) (skipn 1 raw_table))
    = Ok parsed /\
    forall columns,
      (forall row,
          In row (skipn 1 raw_table) ->
          too_short row = false ->
          table_keep t (row_label row) = true ->
          List.length row = columns /\
          forallb truthy (skipn 1 row) = true) ->
      forall label values,
        dict_get label parsed = Some values ->
        List.length values = columns - 1.
Proof.
  eexists. split; [apply table_parser_fold|]. split; [|split].
  - apply parsed_lengths, table_normalizer_yields.
  - rewrite table_parser_fold. cbn [skipn].
    rewrite row_loop_skips_short. reflexivity.
  - intros columns Full label values G.
    apply values_come_from_retained_rows in G
      as [row [Hin [S [K [_ ->]]]]].
    destruct (Full row Hin S K) as [<- A].
    rewrite (row_values_length _ _ (table_normalizer_yields t)).
    rewrite (filter_all _ _ A), length_skipn. reflexivity.
Qed.

Lemma C2_value_lengths_follow_cells_witness :
  exists parsed,
    _parse_monthly_table grid_monthly (lit "2a") = Ok parsed /\
    forall label values,
      dict_get label parsed = Some values ->
      List.length values = 2.
Proof.
  destruct (C2_value_lengths_follow_cells T2a grid_monthly)
    as [parsed [E [_ [_ Equal]]]].
  exists parsed. split; [exact E|].
  apply (Equal 3).
  intros row [<- | [<- | []]] _ _; split; reflexivity.
Defined.

(** ** C3: the page a scan selects *)

Lemma common_substrings (m : str) :
  is_substring m text_tabell_3 ->
  is_substring m text_appendix ->
  is_substring m text_common.
Proof.
  intros H1 H2. apply substrings_complete in H1.
  apply contains_iff in H2. apply contains_iff.
  assert (F : forallb
                (fun m => negb (contains m text_appendix)
                          || contains m text_common)
                (substrings text_tabell_3) = true)
    by (vm_compute; reflexivity).
  rewrite forallb_forall in F. specialize (F m H1).
  rewrite H2 in F. exact F.
Qed.

(** C3, as stated, fails for table 3: no list of required phrases describes
    its scan.  The scan works on a page that reads "Tabell 3" and on a page
    that reads "sentrale størrelser BNP Fastlands-Norge", so every required
    phrase would occur in both texts; "a el" contains every string that
    does, and the scan passes over a page that reads "a el". *)
Lemma C3_table_3_has_no_required_markers :
  ~ every_scan_locates_by_required_markers.
Proof.
  intros H. destruct (H T3) as [markers Hm].
  assert (A1 : has_all_markers markers (page_with_grid text_tabell_3)).
  { destruct (Hm [page_with_grid text_tabell_3] []) as [[i|] [Hl He]].
    - destruct Hl as [pg [Hn [Hp _]]]. destruct i as [|i]; simpl in Hn.
      + injection Hn as <-. exact Hp.
      + destruct i; discriminate.
    - vm_compute in He. discriminate. }
  assert (A2 : has_all_markers markers (page_with_grid text_appendix)).
  { destruct (Hm [page_with_grid text_appendix] []) as [[i|] [Hl He]].
    - destruct Hl as [pg [Hn [Hp _]]]. destruct i as [|i]; simpl in Hn.
      + injection Hn as <-. exact Hp.
      + destruct i; discriminate.
    - vm_compute in He. discriminate. }
  assert (A3 : ~ has_all_markers markers (page_with_grid text_common)).
  { destruct (Hm [page_with_grid text_common] []) as [[i|] [Hl He]].
    - destruct Hl as [pg [Hn _]]. destruct i as [|i]; simpl in Hn.
      + vm_compute in He. discriminate.
      + destruct i; discriminate.
    - apply Hl. left; reflexivity. }
  apply A3. intros m Hin.
  apply (common_substrings m (A1 m Hin) (A2 m Hin)).
Qed.

(** C3, amended: the scans for tables 2a, 2b, 2c and 2d each work on the
    lowest-indexed page whose text contains both of the table's phrases as
    literal substrings, and on no page when there is none; the scan for
    table 3 works on the lowest-indexed page whose text contains "Tabell 3",
    or else both "sentrale størrelser" and "BNP Fastlands-Norge", and on no
    page when there is none. *)
Theorem C3_scans_select_lowest_page :
  selects_page_by
    (has_all_markers [lit "Tabell 2a"; lit "Konsumpriser"]) T2a /\
  selects_page_by
    (has_all_markers [lit "Tabell 2b"; lit "Boligpriser"]) T2b /\
  selects_page_by
    (has_all_markers [lit "Tabell 2c"; lit "ledighet"]) T2c /\
  selects_page_by
    (has_all_markers [lit "Tabell 2d"; lit "BNP"]) T2d /\
  selects_page_by has_table_3_text T3.
Proof.
  repeat split; apply selects_page_by_cond; intros page; simpl.
  - apply cond_2a_iff.
  - apply cond_2b_iff.
  - apply cond_2c_iff.
  - apply cond_2d_iff.
  - apply cond_3_iff.
Qed.

(** ** C4: rows with a known label *)

(** C4, as stated, fails: the only row of [grid_known_first_row] has three
    columns and the label "Faktisk", and the parsed table is empty. *)
Lemma C4_known_first_row_is_dropped : ~ known_rows_all_included.
Proof.
  intros H.
  assert (E : key_count (lit "Faktisk") (@nil (str * list str)) = 1).
  { apply (H grid_known_first_row (lit "2a") []
             [cell "Faktisk"; cell "2,1"; cell "2,3"]); try reflexivity.
    - simpl; auto.
    - simpl; lia. }
  discriminate E.
Qed.

(** C4, amended: the monthly and the quarterly parser return the same
    table.  No label outside the three known labels is a key of it, and
    every entry comes from a row after the first with a known label.  Every
    row after the first with two columns or more and a known trimmed label
    has its label in the table exactly once, with the normalised values of
    the last such row.  The first row is never looked at: the table is the
    same whatever stands there. *)
Theorem C4_known_rows_after_header (raw_table : RawGrid) (table_id : str) :
  exists parsed,
    _parse_monthly_table raw_table table_id = Ok parsed /\
    _parse_quarterly_table raw_table = Ok parsed /\
    files_rows_after_header is_known normalize_monthly raw_table parsed /\
    (forall header,
        _parse_monthly_table (header :: skipn 1 raw_table) table_id
        = Ok parsed).
Proof.
  eexists. split; [apply parse_monthly_ok|].
  split; [apply parse_quarterly_ok|]. split.
  - apply parsed_files_rows.
  - intros header. rewrite parse_monthly_ok. reflexivity.
Qed.

Lemma C4_known_rows_after_header_witness :
  exists parsed,
    _parse_monthly_table grid_monthly (lit "2a") = Ok parsed /\
    key_count (lit "Faktisk") parsed = 1 /\
    key_count (lit "Ukjent rad") parsed = 0.
Proof.
  destruct (C4_known_rows_after_header grid_monthly (lit "2a"))
    as [parsed [E [_ [[Out [_ [_ In_]]] _]]]].
  exists parsed. split; [exact E|]. split.
  - apply (In_ [cell "Faktisk"; cell "2,1"; cell "-"]).
    + simpl; auto.
    + simpl; lia.
    + reflexivity.
  - apply Out. reflexivity.
Defined.

(** ** C5: rows of the annual table *)

(** C5, as stated, fails: the first row of [grid_annual] has three columns
    and the label "Variabel", and the parsed table has the key "KPI" only. *)
Lemma C5_labelled_first_row_is_dropped : ~ labelled_rows_all_kept.
Proof.
  intros H.
  assert (E : key_count (lit "Variabel")
                [(lit "KPI", [lit "3.5"; lit "2.8"])] = 1).
  { apply (H grid_annual [(lit "KPI", [lit "3.5"; lit "2.8"])]
             [cell "Variabel"; cell "2024"; cell "2025"]); try reflexivity.
    - simpl; auto.
    - simpl; lia. }
  discriminate E.
Qed.

(** C5, amended: the annual parser returns a table in which every row after
    the first with two columns or more and a non-empty trimmed label has
    its label exactly once, with the values of the last such row; no entry
    has an empty label, and every entry comes from such a row.  The first
    row is never looked at: the table is the same whatever stands there. *)
Theorem C5_labelled_rows_after_header (raw_table : RawGrid) :
  exists parsed,
    _parse_annual_table raw_table = Ok parsed /\
    files_rows_after_header nonempty normalize_annual raw_table parsed /\
    (forall header,
        _parse_annual_table (header :: skipn 1 raw_table) = Ok parsed).
Proof.
  eexists. split; [apply parse_annual_ok|]. split.
  - apply parsed_files_rows.
  - intros header. rewrite parse_annual_ok. reflexivity.
Qed.

Lemma C5_labelled_rows_after_header_witness :
  exists parsed,
    _parse_annual_table grid_annual = Ok parsed /\
    key_count (lit "KPI") parsed = 1 /\
    key_count (lit "") parsed = 0.
Proof.
  destruct (C5_labelled_rows_after_header grid_annual)
    as [parsed [E [[Out [_ [_ In_]]] _]]].
  exists parsed. split; [exact E|]. split.
  - apply (In_ [cell "KPI"; cell "3,5"; cell "2,8"]).
    + simpl; auto.
    + simpl; lia.
    + reflexivity.
  - apply Out. reflexivity.
Defined.

(** ** C6: documents without pages, documents without markers *)

(** C6, as stated, fails: extraction from a document without pages returns
    the empty result and raises nothing. *)
Lemma C6_empty_document_returns_empty :
  extract [] = Ok [] /\ ~ empty_document_raises.
Proof.
  split; [reflexivity|]. intros [e H]. discriminate H.
Qed.

(** C6, amended: extraction never raises.  From a document without pages
    it returns the empty result, and so it does from every document none of
    whose pages passes the test of any of the five tables. *)
Theorem C6_extract_never_raises :
  extract [] = Ok [] /\
  forall pages,
    (exists doc, extract pages = Ok doc) /\
    ((forall page t,
         In page pages -> table_cond t (extract_text page) = false) ->
     extract pages = Ok []).
Proof.
  split; [reflexivity|]. intros pages. split.
  - destruct (parse_steps pages [] (fun _ _ => True)) as [doc [E _]]; eauto.
  - intros H.
    destruct (parse_steps pages [] (fun a b => b = a)) as [doc [E ->]].
    + reflexivity.
    + intros a b c -> ->; reflexivity.
    + intros t a b. rewrite find_table_scan, scan_no_match.
      * congruence.
      * intros page Hin. apply H; exact Hin.
    + exact E.
Qed.

Lemma C6_extract_never_raises_witness :
  extract [mkPage (lit "Innhold") [grid_monthly]] = Ok [].
Proof.
  apply (proj2 (proj2 C6_extract_never_raises
                  [mkPage (lit "Innhold") [grid_monthly]])).
  intros page t [<- | []]. destruct t; reflexivity.
Defined.

(** ** C7: tokens that mean "no data" *)




(** ** C8: the normaliser is total *)



(** ** C9: the normaliser is idempotent *)

(** C9: a token the monthly (and quarterly) normaliser has produced is
    returned unchanged when it is normalised again. *)
Theorem C9_normalize_monthly_idempotent (c : Cell) (val : str) :
  normalize_monthly c = Some val ->
  normalize_monthly (Some val) = Some val.
Proof.
  intros H. unfold normalize_monthly in H.
  destruct (truthy c); [|discriminate]. cbv zeta in H.
  set (v := replace comma point (strip (py_str c))) in H.
  assert (Sv : strip v = v)
    by (unfold v; rewrite strip_replace, strip_idem; reflexivity).
  assert (Rv : replace comma point v = v) by apply replace_idem.
  clearbody v.
  destruct (in_list v missing_markers) eqn:I; injection H as <-.
  - reflexivity.
  - unfold normalize_monthly. destruct v as [|x v]; [discriminate I|].
    cbn [truthy py_str]. cbv zeta. rewrite Sv, Rv, I. reflexivity.
Qed.

Lemma C9_normalize_monthly_idempotent_witness :
  normalize_monthly (Some (lit "2.1")) = Some (lit "2.1").
Proof.
  exact (C9_normalize_monthly_idempotent (cell " 2,1 ") (lit "2.1") eq_refl).
Defined.

(** ** C10: a located page without grids *)

(** C10: when the first page that passes the test of table [t] has no
    grid, the scan for [t] ends there: it returns [self.tables] as it found
    it, whatever pages follow, extraction raises nothing, and its result
    has no entry for [t]. *)
Theorem C10_scan_ends_at_gridless_page (t : table_id)
  (pre post : list Page) (page : Page) (tables : Tables) :
  (forall q, In q pre -> table_cond t (extract_text q) = false) ->
  table_cond t (extract_text page) = true ->
  extract_tables page = [] ->
  find_table t (pre ++ page :: post) tables = Ok tables /\
  exists doc,
    extract (pre ++ page :: post) = Ok doc /\
    dict_get (table_key t) doc = None.
Proof.
  intros Hpre Hpage Hgrids.
  assert (Stop : forall a, find_table t (pre ++ page :: post) a = Ok a).
  { intros a. rewrite find_table_scan.
    apply scan_stops_at_gridless; assumption. }
  split; [apply Stop|].
  destruct (parse_steps (pre ++ page :: post) []
              (fun a b => dict_get (table_key t) b = dict_get (table_key t) a))
    as [doc [E G]].
  - reflexivity.
  - intros a b c H1 H2; congruence.
  - intros t' a b F. destruct (table_id_eq_dec t t') as [<- | N].
    + rewrite Stop in F. congruence.
    + destruct (find_table_frame t' (pre ++ page :: post) a)
        as [d [F' [-> | [parsed ->]]]].
      * congruence.
      * rewrite F' in F; injection F as <-.
        rewrite dict_get_set, (table_keys_distinct t t' N). reflexivity.
  - exists doc. split; [exact E | exact G].
Qed.

Lemma C10_scan_ends_at_gridless_page_witness :
  find_table T2a
    [mkPage (lit "Tabell 2a Konsumpriser") [];
     mkPage (lit "Tabell 2a Konsumpriser") [grid_monthly]] [] = Ok [] /\
  exists doc,
    extract [mkPage (lit "Tabell 2a Konsumpriser") [];
             mkPage (lit "Tabell 2a Konsumpriser") [grid_monthly]] = Ok doc /\
    dict_get (lit "2a") doc = None.
Proof.
  apply (C10_scan_ends_at_gridless_page T2a []
           [mkPage (lit "Tabell 2a Konsumpriser") [grid_monthly]]
           (mkPage (lit "Tabell 2a Konsumpriser") []) []).
  - intros q [].
  - reflexivity.
  - reflexivity.
Defined.

(* ================================================================== *)
(** * Further properties of the parsers *)

Lemma in_row_values (normalize : Cell -> option str) (cells : list Cell)
  (val : str) :
  In val (row_values normalize cells) ->
  exists c, In c cells /\ normalize c = Some val.
Proof.
  rewrite row_values_flat_map, in_flat_map. intros [c [Hc Hv]].
  exists c. split; [exact Hc|]. unfold tokens in Hv.
  destruct (normalize c) as [v|]; [|contradiction].
  destruct Hv as [-> | []]. reflexivity.
Qed.

Lemma trimmed_replace (s : str) :
  strip (replace comma point (strip s)) = replace comma point (strip s).
Proof. rewrite strip_replace, strip_idem. reflexivity. Qed.

Lemma normalize_monthly_clean (c : Cell) (val : str) :
  normalize_monthly c = Some val -> clean_token val.
Proof.
  intros H. unfold normalize_monthly in H.
  destruct (truthy c); [|discriminate]. cbv zeta in H.
  pose proof (trimmed_replace (py_str c)) as Sv.
  pose proof (replace_no_comma (strip (py_str c))) as Nc.
  destruct (in_list (replace comma point (strip (py_str c))) missing_markers)
    eqn:I; injection H as <-.
  - repeat split.
    + discriminate.
    + intros [E | []]. discriminate E.
    + left; reflexivity.
  - repeat split; auto.
    intros E. rewrite E in I. discriminate I.
Qed.

Lemma normalize_annual_trimmed (c : Cell) (val : str) :
  normalize_annual c = Some val -> strip val = val /\ ~ In comma val.
Proof.
  unfold normalize_annual. destruct (truthy c); [|discriminate].
  intros H; injection H as <-. split.
  - apply trimmed_replace.
  - apply replace_no_comma.
Qed.

Lemma monthly_or_quarterly (raw_table : RawGrid) (table_id : str)
  (parsed : ParsedTable) :
  _parse_monthly_table raw_table table_id = Ok parsed \/
  _parse_quarterly_table raw_table = Ok parsed ->
  parsed =
  fold_left (select_row is_known normalize_monthly) (skipn 1 raw_table) [].
Proof.
  rewrite parse_monthly_ok, parse_quarterly_ok.
  intros [H | H]; injection H as <-; reflexivity.
Qed.

(** X1: in a table of the monthly or the quarterly parser every token of
    every value sequence is clean: not empty, trimmed, free of commas, and
    ["-"] or none of the strings "", "nan" and "None". *)
Theorem X1_monthly_tokens_are_clean (raw_table : RawGrid) (table_id : str)
  (parsed : ParsedTable) (label : str) (values : list str) (val : str) :
  _parse_monthly_table raw_table table_id = Ok parsed \/
  _parse_quarterly_table raw_table = Ok parsed ->
  dict_get label parsed = Some values ->
  In val values ->
  clean_token val.
Proof.
  intros P G Hin. apply monthly_or_quarterly in P. subst parsed.
  destruct (parsed_lengths is_known normalize_monthly
              monthly_yields_on_truthy raw_table
              label values G) as [row [_ [_ [_ [E _]]]]].
  subst values. apply in_row_values in Hin as [c [_ Hc]].
  exact (normalize_monthly_clean c val Hc).
Qed.

Lemma X1_monthly_tokens_are_clean_witness : clean_token (lit "2.1").
Proof.
  apply (X1_monthly_tokens_are_clean grid_monthly (lit "2a")
           [(lit "Faktisk", [lit "2.1"; lit "-"])]
           (lit "Faktisk") [lit "2.1"; lit "-"] (lit "2.1")).
  - left; reflexivity.
  - reflexivity.
  - simpl; auto.
Defined.

(** X2: in a table of the annual parser every key is a non-empty, trimmed
    string, and every token of every value sequence is trimmed and free of
    commas. *)
Theorem X2_annual_keys_and_tokens_are_trimmed (raw_table : RawGrid)
  (parsed : ParsedTable) (label : str) (values : list str) :
  _parse_annual_table raw_table = Ok parsed ->
  dict_get label parsed = Some values ->
  (label <> [] /\ strip label = label) /\
  forall val, In val values -> strip val = val /\ ~ In comma val.
Proof.
  rewrite parse_annual_ok. intros P G; injection P as <-. split.
  - destruct (parsed_files_rows nonempty normalize_annual raw_table)
      as [_ [_ [K _]]].
    destruct (K label values G) as [row [_ [_ [E N]]]]. split.
    + intros ->. discriminate N.
    + rewrite <- E. unfold row_label. apply strip_idem.
  - intros val Hin.
    destruct (parsed_lengths nonempty normalize_annual
                annual_yields_on_truthy raw_table
                label values G) as [row [_ [_ [_ [E _]]]]].
    subst values. apply in_row_values in Hin as [c [_ Hc]].
    exact (normalize_annual_trimmed c val Hc).
Qed.

Lemma X2_annual_keys_and_tokens_are_trimmed_witness :
  (lit "KPI" <> [] /\ strip (lit "KPI") = lit "KPI") /\
  forall val, In val [lit "3.5"; lit "2.8"] ->
              strip val = val /\ ~ In comma val.
Proof.
  apply (X2_annual_keys_and_tokens_are_trimmed grid_annual
           [(lit "KPI", [lit "3.5"; lit "2.8"])]).
  - reflexivity.
  - reflexivity.
Defined.

(** *** The order of the keys *)

Lemma in_list_keys (k : str) (l : list str) :
  in_list k l = true <-> In k l.
Proof. apply in_list_In. Qed.

Lemma dict_keys_set {V} (k : str) (v : V) (d : dict V) :
  dict_keys (dict_set k v d) =
  if in_list k (dict_keys d) then dict_keys d else dict_keys d ++ [k].
Proof.
  induction d as [|[k' v'] d IH]; simpl.
  - reflexivity.
  - destruct (str_eqb k k'); simpl.
    + reflexivity.
    + rewrite IH. unfold dict_keys.
      destruct (in_list k (map fst d)); reflexivity.
Qed.

Lemma select_row_retained (keep : str -> bool)
  (normalize : Cell -> option str) (d : ParsedTable) (row : Row) :
  select_row keep normalize d row =
  if retained keep row
  then dict_set (row_label row) (row_values normalize (skipn 1 row)) d
  else d.
Proof.
  unfold select_row, retained. destruct (too_short row); simpl; auto.
Qed.

Lemma first_appearance_snoc (l : list str) (k : str) :
  rev (nodup str_eq_dec (rev (l ++ [k]))) =
  if in_list k (rev (nodup str_eq_dec (rev l)))
  then rev (nodup str_eq_dec (rev l))
  else rev (nodup str_eq_dec (rev l)) ++ [k].
Proof.
  rewrite rev_app_distr. simpl.
  destruct (in_dec str_eq_dec k (rev l)) as [Y | N].
  - replace (in_list k (rev (nodup str_eq_dec (rev l)))) with true;
      [reflexivity|].
    symmetry. apply in_list_In. rewrite <- in_rev. apply nodup_In. exact Y.
  - replace (in_list k (rev (nodup str_eq_dec (rev l)))) with false;
      [reflexivity|].
    symmetry. apply not_true_is_false. intros H. apply N.
    apply in_list_In in H. rewrite <- in_rev in H.
    apply nodup_In in H. exact H.
Qed.

Lemma keys_of_row_loop (keep : str -> bool) (normalize : Cell -> option str)
  (rows : list Row) :
  dict_keys (fold_left (select_row keep normalize) rows []) =
  labels_in_order keep rows.
Proof.
  induction rows as [|row rows IH] using rev_ind.
  - reflexivity.
  - rewrite fold_left_app. simpl. rewrite select_row_retained.
    unfold labels_in_order in *. rewrite filter_app. simpl.
    destruct (retained keep row).
    + rewrite map_app. simpl. rewrite first_appearance_snoc.
      rewrite dict_keys_set, IH. reflexivity.
    + rewrite app_nil_r. exact IH.
Qed.

(** X3: the keys of a parsed table stand in the order in which their
    labels first appear among the retained rows after the header; a later
    row with the same label overwrites the values and leaves the key where
    it is. *)
Theorem X3_keys_in_order_of_first_appearance (t : table_id)
  (raw_table : RawGrid) :
  exists parsed,
    table_parser t raw_table = Ok parsed /\
    dict_keys parsed = labels_in_order (table_keep t) (skipn 1 raw_table).
Proof.
  eexists. split; [apply table_parser_fold|]. apply keys_of_row_loop.
Qed.

(** X4: a row after the header whose label cell is null and which has a
    second column is filed by the annual parser under the key "None", the
    text of [str(None)]; the monthly parser never files anything under
    that key. *)
Theorem X4_null_label_is_filed_as_None (raw_table : RawGrid)
  (cells : list Cell) (table_id : str) :
  In (None :: cells) (skipn 1 raw_table) ->
  cells <> [] ->
  (exists parsed,
      _parse_annual_table raw_table = Ok parsed /\
      key_count (lit "None") parsed = 1) /\
  (exists parsed,
      _parse_monthly_table raw_table table_id = Ok parsed /\
      key_count (lit "None") parsed = 0).
Proof.
  intros Hin Hcells. split.
  - eexists. split; [apply parse_annual_ok|].
    destruct (parsed_files_rows nonempty normalize_annual raw_table)
      as [_ [_ [_ K]]].
    destruct (K (None :: cells) Hin) as [E _].
    + destruct cells; [congruence | simpl; lia].
    + reflexivity.
    + exact E.
  - eexists. split; [apply parse_monthly_ok|].
    destruct (parsed_files_rows is_known normalize_monthly raw_table)
      as [Out _].
    apply Out. reflexivity.
Qed.

Lemma X4_null_label_is_filed_as_None_witness :
  (exists parsed,
      _parse_annual_table [[]; [None; cell "1,5"]] = Ok parsed /\
      key_count (lit "None") parsed = 1) /\
  (exists parsed,
      _parse_monthly_table [[]; [None; cell "1,5"]] (lit "2a") = Ok parsed /\
      key_count (lit "None") parsed = 0).
Proof.
  apply (X4_null_label_is_filed_as_None [[]; [None; cell "1,5"]]
           [cell "1,5"] (lit "2a")).
  - simpl; auto.
  - discriminate.
Defined.

(* ================================================================== *)
(** * Further properties of the page scans *)

(** What the scan for table [t] does to [self.tables]. *)
Lemma find_table_entry (t : table_id) (pages : list Page) (tables : Tables) :
  find_table t pages tables =
  Ok match table_entry t pages with
     | Some parsed => dict_set (table_key t) parsed tables
     | None => tables
     end.
Proof.
  rewrite find_table_scan. unfold table_entry, located_page.
  induction pages as [|page rest IH]; simpl.
  - reflexivity.
  - destruct (table_cond t (extract_text page)); [|exact IH].
    destruct (extract_tables page) as [|grid grids]; [reflexivity|].
    rewrite subscript_head; simpl.
    destruct (table_parser_ok t grid) as [parsed ->]. reflexivity.
Qed.

Lemma located_page_first (t : table_id) (pre post : list Page) (page : Page) :
  (forall q, In q pre -> table_cond t (extract_text q) = false) ->
  table_cond t (extract_text page) = true ->
  located_page t (pre ++ page :: post) = Some page.
Proof.
  intros Hpre Hpage. unfold located_page.
  induction pre as [|q pre IH]; simpl.
  - rewrite Hpage. reflexivity.
  - rewrite (Hpre q (or_introl eq_refl)). apply IH.
    intros q' Hq'. apply Hpre. right; exact Hq'.
Qed.

(** X5: on the pages of an opened document, each with its text and its
    grids already extracted, the five scans that [parse] runs on an empty
    [self.tables] raise nothing, and their result is known entry by entry:
    for each of the five tables, in the order 2a, 2b, 2c, 2d, 3, one entry
    when the first page passing the table's test has a grid, holding the
    parse of that page's first grid, and no entry otherwise.  Looking a
    table up in the result gives exactly that; the five scans do not
    disturb one another.  (Opening the file and extracting the pages are
    pdfplumber's and lie outside this statement.) *)
Theorem X5_extract_entry_by_entry (pages : list Page) :
  extract pages = Ok (entries pages) /\
  forall t, dict_get (table_key t) (entries pages) = table_entry t pages.
Proof.
  split.
  - unfold extract, parse.
    change _find_table_2a with (find_table T2a).
    change _find_table_2b with (find_table T2b).
    change _find_table_2c with (find_table T2c).
    change _find_table_2d with (find_table T2d).
    change _find_table_3 with (find_table T3).
    unfold entries, all_tables. cbn [flat_map].
    rewrite find_table_entry; cbn [bind].
    rewrite find_table_entry; cbn [bind].
    rewrite find_table_entry; cbn [bind].
    rewrite find_table_entry; cbn [bind].
    rewrite find_table_entry; cbn [bind].
    destruct (table_entry T2a pages), (table_entry T2b pages),
      (table_entry T2c pages), (table_entry T2d pages),
      (table_entry T3 pages); reflexivity.
  - intros t. unfold entries, all_tables. cbn [flat_map].
    destruct (table_entry T2a pages) eqn:E1, (table_entry T2b pages) eqn:E2,
      (table_entry T2c pages) eqn:E3, (table_entry T2d pages) eqn:E4,
      (table_entry T3 pages) eqn:E5;
      destruct t; simpl; congruence.
Qed.

(** X6: a scan consults nothing beyond the first grid of the first page
    whose text passes: the pages before it, the pages after it and the
    other grids of that page can be taken away without changing what the
    scan does to [self.tables]. *)
Theorem X6_scan_reads_one_grid (t : table_id) (pre post : list Page)
  (page : Page) (tables : Tables) :
  (forall q, In q pre -> table_cond t (extract_text q) = false) ->
  table_cond t (extract_text page) = true ->
  find_table t (pre ++ page :: post) tables =
  find_table t [mkPage (extract_text page) (firstn 1 (extract_tables page))]
    tables.
Proof.
  intros Hpre Hpage. rewrite !find_table_entry. unfold table_entry.
  rewrite (located_page_first t pre post page Hpre Hpage).
  unfold located_page; simpl. rewrite Hpage; simpl.
  destruct (extract_tables page); reflexivity.
Qed.

Lemma X6_scan_reads_one_grid_witness :
  find_table T3
    [mkPage (lit "Innhold") [grid_monthly];
     mkPage (lit "Tabell 3") [grid_annual; grid_monthly];
     mkPage (lit "Tabell 3") [grid_monthly]] [] =
  find_table T3 [mkPage (lit "Tabell 3") [grid_annual]] [].
Proof.
  apply (X6_scan_reads_one_grid T3
           [mkPage (lit "Innhold") [grid_monthly]]
           [mkPage (lit "Tabell 3") [grid_monthly]]
           (mkPage (lit "Tabell 3") [grid_annual; grid_monthly]) []).
  - intros q [<- | []]. reflexivity.
  - reflexivity.
Defined.

(** *** Parsing again *)

Lemma dict_set_same {V} (k : str) (v : V) (d : dict V) :
  dict_get k d = Some v -> dict_set k v d = d.
Proof.
  induction d as [|[k' v'] d IH]; simpl.
  - discriminate.
  - destruct (str_eqb k k').
    + intros H; injection H as ->. reflexivity.
    + intros H. rewrite (IH H). reflexivity.
Qed.

Lemma get_after_scan (t t' : table_id) (pages : list Page) (tables : Tables)
  (parsed : ParsedTable) :
  (t = t' /\ table_entry t pages = Some parsed) \/
  (t <> t' /\ dict_get (table_key t) tables = Some parsed) ->
  dict_get (table_key t)
    match table_entry t' pages with
    | Some p => dict_set (table_key t') p tables
    | None => tables
    end = Some parsed.
Proof.
  intros [[<- E] | [N G]].
  - rewrite E, dict_get_set, str_eqb_refl. reflexivity.
  - destruct (table_entry t' pages); [|exact G].
    rewrite dict_get_set, (table_keys_distinct t t' N). exact G.
Qed.

(** X7: parsing the same document a second time with the same parser
    leaves [self.tables] as the first run left it. *)
Theorem X7_parse_again_changes_nothing (pages : list Page)
  (tables doc : Tables) :
  parse pages tables = Ok doc ->
  parse pages doc = Ok doc.
Proof.
  unfold parse.
  change _find_table_2a with (find_table T2a).
  change _find_table_2b with (find_table T2b).
  change _find_table_2c with (find_table T2c).
  change _find_table_2d with (find_table T2d).
  change _find_table_3 with (find_table T3).
  intros H.
  repeat (rewrite find_table_entry in H; cbn [bind] in H).
  injection H as H.
  assert (Fix : forall t,
             match table_entry t pages with
             | Some p => dict_set (table_key t) p doc
             | None => doc end = doc).
  { intros t. destruct (table_entry t pages) as [p|] eqn:E; [|reflexivity].
    apply dict_set_same. rewrite <- H.
    destruct t;
      repeat first
        [ apply get_after_scan; left; split; [reflexivity | exact E]
        | apply get_after_scan; right; split; [discriminate|] ]. }
  rewrite find_table_entry, (Fix T2a); cbn [bind].
  rewrite find_table_entry, (Fix T2b); cbn [bind].
  rewrite find_table_entry, (Fix T2c); cbn [bind].
  rewrite find_table_entry, (Fix T2d); cbn [bind].
  rewrite find_table_entry, (Fix T3); cbn [bind].
  reflexivity.
Qed.

Lemma X7_parse_again_changes_nothing_witness :
  parse [mkPage (lit "Tabell 3") [grid_annual]]
    [(lit "3", [(lit "KPI", [lit "3.5"; lit "2.8"])])] =
  Ok [(lit "3", [(lit "KPI", [lit "3.5"; lit "2.8"])])].
Proof.
  exact (X7_parse_again_changes_nothing
           [mkPage (lit "Tabell 3") [grid_annual]] [] _ eq_refl).
Defined.

(* ================================================================== *)
(** * The publication calendar *)

Lemma date_le_iff (a b : date) :
  date_le a b = true <->
  (year a < year b \/
   (year a = year b /\
    (month a < month b \/ (month a = month b /\ day a <= day b))))%Z.
Proof.
  unfold date_le.
  repeat first [rewrite orb_true_iff | rewrite andb_true_iff].
  rewrite !Z.ltb_lt, !Z.eqb_eq, Z.leb_le. tauto.
Qed.

Lemma date_le_false_iff (a b : date) :
  date_le a b = false <->
  (year b < year a \/
   (year a = year b /\
    (month b < month a \/ (month a = month b /\ day b < day a))))%Z.
Proof.
  rewrite <- not_true_iff_false, date_le_iff. lia.
Qed.

Lemma date_le_antisym (a b : date) :
  date_le a b = true -> date_le b a = true -> a = b.
Proof.
  rewrite !date_le_iff. destruct a as [ya ma da], b as [yb mb db]; simpl.
  intros H1 H2.
  assert (ya = yb /\ ma = mb /\ da = db) as [-> [-> ->]] by lia.
  reflexivity.
Qed.

Lemma days_in_month_le (y m : Z) : (days_in_month y m <= 31)%Z.
Proof.
  unfold days_in_month.
  destruct (m =? 2)%Z; [destruct (is_leap y); lia|].
  destruct ((m =? 4) || (m =? 6) || (m =? 9) || (m =? 11))%Z; lia.
Qed.

Lemma is_date_bounds (today : date) :
  is_date today ->
  (1 <= year today <= 9999 /\ 1 <= month today <= 12 /\
   1 <= day today <= 31)%Z.
Proof.
  unfold is_date, date_new.
  destruct ((1 <=? year today) && (year today <=? 9999)
            && (1 <=? month today) && (month today <=? 12)
            && (1 <=? day today)
            && (day today <=? days_in_month (year today) (month today)))%Z
    eqn:E; [|discriminate].
  intros _. rewrite !andb_true_iff, !Z.leb_le in E.
  pose proof (days_in_month_le (year today) (month today)). lia.
Qed.

Lemma date_new_20 (y m : Z) :
  (1 <= y <= 9999)%Z ->
  (m = 3 \/ m = 6 \/ m = 9 \/ m = 12)%Z ->
  date_new y m 20 = Returned (mkDate y m 20).
Proof.
  intros [Y1 Y2] M. unfold date_new.
  apply Z.leb_le in Y1, Y2. rewrite Y1, Y2.
  destruct M as [-> | [-> | [-> | ->]]]; reflexivity.
Qed.

Lemma date_new_late (y m d : Z) :
  (9999 < y)%Z -> date_new y m d = Raised ValueError.
Proof.
  intros Y. unfold date_new.
  apply Z.leb_gt in Y. rewrite Y, andb_false_r. reflexivity.
Qed.

Lemma get_next_ppr_info_cases (today : date) :
  (1 <= year today <= 9999)%Z ->
  get_next_ppr_info today =
  let y := year today in
  if date_le today (mkDate y 3 20) then Returned (y, 1%Z, mkDate y 3 20)
  else if date_le today (mkDate y 6 20) then Returned (y, 2%Z, mkDate y 6 20)
  else if date_le today (mkDate y 9 20) then Returned (y, 3%Z, mkDate y 9 20)
  else if date_le today (mkDate y 12 20)
       then Returned (y, 4%Z, mkDate y 12 20)
  else if (y + 1 <=? 9999)%Z
       then Returned ((y + 1)%Z, 1%Z, mkDate (y + 1) 3 20)
  else Raised ValueError.
Proof.
  intros Y. unfold get_next_ppr_info. cbv zeta.
  cbn [first_release schedule_get ppr_schedule Z.eqb Pos.eqb and_then].
  rewrite !(date_new_20 (year today)) by (auto; lia).
  cbn [and_then]. unfold date_ge.
  destruct (date_le today (mkDate (year today) 3 20)); [reflexivity|].
  destruct (date_le today (mkDate (year today) 6 20)); [reflexivity|].
  destruct (date_le today (mkDate (year today) 9 20)); [reflexivity|].
  destruct (date_le today (mkDate (year today) 12 20)); [reflexivity|].
  destruct (year today + 1 <=? 9999)%Z eqn:E.
  - apply Z.leb_le in E. rewrite date_new_20 by (auto; lia). reflexivity.
  - apply Z.leb_gt in E. rewrite date_new_late by lia. reflexivity.
Qed.

(** What [get_next_ppr_info] returns on a date [today]. *)
Lemma get_next_ppr_info_spec (today : date) :
  is_date today ->
  (date_le today (release_date 9999 4) = true ->
   exists y q,
     get_next_ppr_info today = Returned (y, q, release_date y q) /\
     (1 <= q <= 4)%Z /\
     date_le today (release_date y q) = true /\
     forall y' q',
       (1 <= q' <= 4)%Z ->
       date_le today (release_date y' q') = true ->
       date_le (release_date y q) (release_date y' q') = true) /\
  (date_le today (release_date 9999 4) = false ->
   get_next_ppr_info today = Raised ValueError).
Proof.
  intros D. apply is_date_bounds in D as [Y [M Dy]].
  rewrite (get_next_ppr_info_cases today Y). cbv zeta.
  destruct today as [y m d]. cbn [year month day] in *.
  split.
  - intros L. apply date_le_iff in L. cbn [release_date year month day] in L.
    destruct (date_le (mkDate y m d) (mkDate y 3 20)) eqn:E1;
      [|destruct (date_le (mkDate y m d) (mkDate y 6 20)) eqn:E2;
        [|destruct (date_le (mkDate y m d) (mkDate y 9 20)) eqn:E3;
          [|destruct (date_le (mkDate y m d) (mkDate y 12 20)) eqn:E4;
            [|destruct (y + 1 <=? 9999)%Z eqn:E5]]]].
    + exists y, 1%Z. split; [reflexivity|]. split; [lia|].
      split; [exact E1|]. intros y' q' Q H.
      rewrite date_le_iff in *. cbn [release_date year month day] in *. lia.
    + exists y, 2%Z. split; [reflexivity|]. split; [lia|].
      split; [exact E2|]. intros y' q' Q H.
      rewrite date_le_false_iff in E1. rewrite date_le_iff in *.
      cbn [release_date year month day] in *. lia.
    + exists y, 3%Z. split; [reflexivity|]. split; [lia|].
      split; [exact E3|]. intros y' q' Q H.
      rewrite date_le_false_iff in E1, E2. rewrite date_le_iff in *.
      cbn [release_date year month day] in *. lia.
    + exists y, 4%Z. split; [reflexivity|]. split; [lia|].
      split; [exact E4|]. intros y' q' Q H.
      rewrite date_le_false_iff in E1, E2, E3. rewrite date_le_iff in *.
      cbn [release_date year month day] in *. lia.
    + exists (y + 1)%Z, 1%Z. split; [reflexivity|]. split; [lia|].
      rewrite date_le_false_iff in E1, E2, E3, E4.
      cbn [year month day] in *. split.
      * apply date_le_iff. cbn [release_date year month day]. lia.
      * intros y' q' Q H. rewrite date_le_iff in *.
        cbn [release_date year month day] in *. lia.
    + apply Z.leb_gt in E5. rewrite date_le_false_iff in E4.
      cbn [year month day] in *. lia.
  - intros L. apply date_le_false_iff in L.
    cbn [release_date year month day] in L.
    replace (date_le (mkDate y m d) (mkDate y 3 20)) with false
      by (symmetry; apply date_le_false_iff; cbn [year month day]; lia).
    replace (date_le (mkDate y m d) (mkDate y 6 20)) with false
      by (symmetry; apply date_le_false_iff; cbn [year month day]; lia).
    replace (date_le (mkDate y m d) (mkDate y 9 20)) with false
      by (symmetry; apply date_le_false_iff; cbn [year month day]; lia).
    replace (date_le (mkDate y m d) (mkDate y 12 20)) with false
      by (symmetry; apply date_le_false_iff; cbn [year month day]; lia).
    replace (y + 1 <=? 9999)%Z with false
      by (symmetry; apply Z.leb_gt; lia).
    reflexivity.
Qed.

(** X8: on any date up to 20 December 9999, [get_next_ppr_info] returns the
    year, the quarter (1 to 4) and the date of the earliest planned release
    (20 March, June, September or December) that is not before today: a
    release falling on today itself is the one returned.  On the last
    eleven days of the year 9999 it raises [ValueError], from
    [date(year + 1, 3, 20)]. *)
Theorem X8_next_release_is_the_earliest (today : date) :
  is_date today ->
  (date_le today (release_date 9999 4) = true ->
   exists y q,
     get_next_ppr_info today = Returned (y, q, release_date y q) /\
     (1 <= q <= 4)%Z /\
     date_le today (release_date y q) = true /\
     forall y' q',
       (1 <= q' <= 4)%Z ->
       date_le today (release_date y' q') = true ->
       date_le (release_date y q) (release_date y' q') = true) /\
  (date_le today (release_date 9999 4) = false ->
   get_next_ppr_info today = Raised ValueError).
Proof. exact (get_next_ppr_info_spec today). Qed.

Lemma X8_next_release_is_the_earliest_witness :
  (exists y q,
     get_next_ppr_info (mkDate 2026 12 21) = Returned (y, q, release_date y q)
     /\ (1 <= q <= 4)%Z
     /\ date_le (mkDate 2026 12 21) (release_date y q) = true
     /\ forall y' q',
          (1 <= q' <= 4)%Z ->
          date_le (mkDate 2026 12 21) (release_date y' q') = true ->
          date_le (release_date y q) (release_date y' q') = true) /\
  get_next_ppr_info (mkDate 9999 12 21) = Raised ValueError.
Proof.
  split.
  - exact (proj1 (X8_next_release_is_the_earliest (mkDate 2026 12 21) eq_refl)
             eq_refl).
  - exact (proj2 (X8_next_release_is_the_earliest (mkDate 9999 12 21) eq_refl)
             eq_refl).
Defined.

(** X9: started without a file name, [main] goes on to fetch a report only
    when the release date found is not after today.  With the clock read
    twice on the same day, that is exactly when today is one of the planned
    release days (the 20th of March, June, September or December), and the
    report fetched is that day's; on every other day [main] leaves without
    fetching, or [get_next_ppr_info] has raised. *)
Theorem X9_fetch_only_on_a_release_day (today_info today : date) (y q : Z) :
  is_date today_info ->
  (main_without_argument today_info today = Returned (Fetch y q) ->
   (1 <= q <= 4)%Z /\
   date_le today_info (release_date y q) = true /\
   date_le (release_date y q) today = true) /\
  (today_info = today ->
   (main_without_argument today_info today = Returned (Fetch y q) <->
    (1 <= q <= 4)%Z /\ today = release_date y q)).
Proof.
  intros D.
  assert (Fwd : main_without_argument today_info today = Returned (Fetch y q)
                -> (1 <= q <= 4)%Z /\
                   date_le today_info (release_date y q) = true /\
                   date_le (release_date y q) today = true).
  { unfold main_without_argument.
    destruct (get_next_ppr_info_spec today_info D) as [S1 S2].
    destruct (date_le today_info (release_date 9999 4)).
    - destruct (S1 eq_refl) as [y0 [q0 [E [Q [L _]]]]]. rewrite E.
      cbn [and_then]. unfold date_gt.
      destruct (date_le (release_date y0 q0) today) eqn:G; cbn [negb].
      + intros H; injection H as <- <-. auto.
      + discriminate.
    - rewrite (S2 eq_refl). discriminate. }
  split; [exact Fwd|].
  intros <-. split.
  - intros H. destruct (Fwd H) as [Q [L1 L2]]. split; [exact Q|].
    apply date_le_antisym; assumption.
  - intros [Q E]. unfold main_without_argument.
    destruct (get_next_ppr_info_spec today_info D) as [S1 _].
    pose proof (is_date_bounds today_info D) as [Y _].
    assert (L : date_le today_info (release_date 9999 4) = true).
    { rewrite E in *. apply date_le_iff.
      cbn [release_date year month day] in *. lia. }
    destruct (S1 L) as [y0 [q0 [E0 [Q0 [L0 Min]]]]].
    assert (Self : date_le today_info (release_date y q) = true).
    { rewrite <- E. apply date_le_iff. lia. }
    pose proof (Min y q Q Self) as L1. rewrite <- E in L1.
    pose proof (date_le_antisym _ _ L0 L1) as E1.
    rewrite E0. cbn [and_then]. unfold date_gt. rewrite L1. cbn [negb].
    rewrite E in E1.
    pose proof (f_equal year E1) as Ey. pose proof (f_equal month E1) as Em.
    cbn [release_date year month] in Ey, Em.
    assert (y0 = y /\ q0 = q) as [-> ->] by lia. reflexivity.
Qed.

Lemma X9_fetch_only_on_a_release_day_witness :
  main_without_argument (mkDate 2026 3 20) (mkDate 2026 3 20)
  = Returned (Fetch 2026 1).
Proof.
  apply (proj2 (X9_fetch_only_on_a_release_day
                  (mkDate 2026 3 20) (mkDate 2026 3 20) 2026 1 eq_refl)
           eq_refl).
  split; [lia | reflexivity].
Defined.

(* ================================================================== *)
(** * The address of a report *)

Example build_ppr_url_example :
  build_ppr_url default_max_str_digits 2026 1 =
  Returned (base_url ++ lit "/2026/ppr-12026/").
Proof. reflexivity. Qed.

Lemma N_of_ascii_inj (a b : ascii) : N_of_ascii a = N_of_ascii b -> a = b.
Proof.
  intros H. rewrite <- (ascii_N_embedding a), <- (ascii_N_embedding b), H.
  reflexivity.
Qed.

Lemma lit_inj (a b : string) : lit a = lit b -> a = b.
Proof.
  unfold lit. revert b; induction a as [|x a IH]; intros [|y b]; simpl;
    try discriminate; auto.
  intros H; injection H as Hx Hs.
  apply N_of_ascii_inj in Hx. apply IH in Hs. subst; reflexivity.
Qed.

Lemma string_of_int_inj (d d' : Decimal.int) :
  NilEmpty.string_of_int d = NilEmpty.string_of_int d' -> d = d'.
Proof.
  intros H. apply (f_equal NilEmpty.int_of_string) in H.
  rewrite !NilEmpty.isi in H. injection H as ->. reflexivity.
Qed.

Lemma decimal_inj (n n' : Z) :
  lit (NilEmpty.string_of_int (Z.to_int n)) =
  lit (NilEmpty.string_of_int (Z.to_int n')) ->
  n = n'.
Proof.
  intros H. apply lit_inj, string_of_int_inj, DecimalZ.to_int_inj in H.
  exact H.
Qed.

Lemma no_slash_uint (d : Decimal.uint) :
  ~ In slash (lit (NilEmpty.string_of_uint d)).
Proof.
  induction d; simpl; intros H;
    try (destruct H as [H | H]; [discriminate H | exact (IHd H)]).
  exact H.
Qed.

Lemma no_slash_decimal (n : Z) :
  ~ In slash (lit (NilEmpty.string_of_int (Z.to_int n))).
Proof.
  destruct (Z.to_int n) as [d | d]; simpl.
  - apply no_slash_uint.
  - intros [H | H]; [discriminate H | exact (no_slash_uint d H)].
Qed.

Lemma split_at_first (c : char) (a a' r r' : str) :
  ~ In c a -> ~ In c a' ->
  a ++ c :: r = a' ++ c :: r' ->
  a = a' /\ r = r'.
Proof.
  revert a'; induction a as [|x a IH]; intros [|x' a'] Na Na' E;
    simpl in *.
  - injection E as ->. auto.
  - injection E as <- _. tauto.
  - injection E as -> _. tauto.
  - injection E as <- E. destruct (IH a') as [-> ->]; auto.
Qed.

Lemma fits_iff (max_str_digits : nat) (n : Z) :
  fits max_str_digits n <->
  (0 <? max_str_digits) && (max_str_digits <? count_digits n) = false.
Proof.
  unfold fits. rewrite andb_false_iff, !Nat.ltb_ge. lia.
Qed.

Lemma str_of_int_fits (max_str_digits : nat) (n : Z) :
  fits max_str_digits n ->
  str_of_int max_str_digits n =
  Returned (lit (NilEmpty.string_of_int (Z.to_int n))).
Proof.
  intros F. apply fits_iff in F. unfold str_of_int. rewrite F. reflexivity.
Qed.

Lemma str_of_int_unfit (max_str_digits : nat) (n : Z) :
  ~ fits max_str_digits n ->
  str_of_int max_str_digits n = Raised ValueError.
Proof.
  intros F. unfold str_of_int.
  destruct ((0 <? max_str_digits) && (max_str_digits <? count_digits n))
    eqn:E; [reflexivity|].
  apply fits_iff in E. contradiction.
Qed.

Lemma fits_dec (max_str_digits : nat) (n : Z) :
  fits max_str_digits n \/ ~ fits max_str_digits n.
Proof.
  destruct ((0 <? max_str_digits) && (max_str_digits <? count_digits n))
    eqn:E.
  - right. intros F. apply fits_iff in F. congruence.
  - left. apply fits_iff. exact E.
Qed.

Lemma build_ppr_url_returned (max_str_digits : nat) (year quarter : Z)
  (url : str) :
  build_ppr_url max_str_digits year quarter = Returned url ->
  fits max_str_digits year /\ fits max_str_digits quarter /\
  url = base_url ++ lit "/"
          ++ lit (NilEmpty.string_of_int (Z.to_int year)) ++ lit "/ppr-"
          ++ lit (NilEmpty.string_of_int (Z.to_int quarter))
          ++ lit (NilEmpty.string_of_int (Z.to_int year)) ++ lit "/".
Proof.
  unfold build_ppr_url.
  destruct (fits_dec max_str_digits year) as [Fy | Fy];
    [|rewrite (str_of_int_unfit _ _ Fy); discriminate].
  destruct (fits_dec max_str_digits quarter) as [Fq | Fq];
    [|rewrite (str_of_int_fits _ _ Fy), (str_of_int_unfit _ _ Fq);
      discriminate].
  rewrite (str_of_int_fits _ _ Fy), (str_of_int_fits _ _ Fq).
  cbn [and_then]. intros H; injection H as <-. auto.
Qed.

Lemma address_inj (year quarter year' quarter' : Z) :
  base_url ++ lit "/"
    ++ lit (NilEmpty.string_of_int (Z.to_int year)) ++ lit "/ppr-"
    ++ lit (NilEmpty.string_of_int (Z.to_int quarter))
    ++ lit (NilEmpty.string_of_int (Z.to_int year)) ++ lit "/" =
  base_url ++ lit "/"
    ++ lit (NilEmpty.string_of_int (Z.to_int year')) ++ lit "/ppr-"
    ++ lit (NilEmpty.string_of_int (Z.to_int quarter'))
    ++ lit (NilEmpty.string_of_int (Z.to_int year')) ++ lit "/" ->
  year = year' /\ quarter = quarter'.
Proof.
  intros H. apply app_inv_head in H.
  change (lit "/") with [slash] in H.
  change (lit "/ppr-") with (slash :: lit "ppr-") in H.
  cbn [app] in H. injection H as H.
  apply split_at_first in H as [Hy H]; try apply no_slash_decimal.
  apply decimal_inj in Hy. subst year'.
  injection H as H. apply app_inv_tail in H.
  apply decimal_inj in H. auto.
Qed.

(** X10: under any limit on the digits of an integer converted to text
    (none, or the 4300 of a current interpreter), [build_ppr_url] raises
    [ValueError] when the year or the quarter has more digits than the
    limit, and returns an address otherwise; two calls that return and
    differ in the year or in the quarter return different addresses, also
    where the last path segments read the same (quarter 1 of 22026 and
    quarter 12 of 2026 both end in "ppr-122026/"). *)
Theorem X10_build_ppr_url_tells_reports_apart (max_str_digits : nat)
  (year quarter : Z) :
  (fits max_str_digits year /\ fits max_str_digits quarter ->
   exists url,
     build_ppr_url max_str_digits year quarter = Returned url /\
     forall year' quarter' url',
       build_ppr_url max_str_digits year' quarter' = Returned url' ->
       year <> year' \/ quarter <> quarter' ->
       url <> url') /\
  (~ (fits max_str_digits year /\ fits max_str_digits quarter) ->
   build_ppr_url max_str_digits year quarter = Raised ValueError).
Proof.
  split.
  - intros [Fy Fq]. eexists. split.
    + unfold build_ppr_url.
      rewrite (str_of_int_fits _ _ Fy), (str_of_int_fits _ _ Fq).
      reflexivity.
    + intros year' quarter' url' R D E. subst url'.
      apply build_ppr_url_returned in R as [_ [_ R]].
      apply address_inj in R. tauto.
  - intros N. unfold build_ppr_url.
    destruct (fits_dec max_str_digits year) as [Fy | Fy];
      [|rewrite (str_of_int_unfit _ _ Fy); reflexivity].
    destruct (fits_dec max_str_digits quarter) as [Fq | Fq];
      [tauto|].
    rewrite (str_of_int_fits _ _ Fy), (str_of_int_unfit _ _ Fq).
    reflexivity.
Qed.

Lemma X10_build_ppr_url_tells_reports_apart_witness :
  (exists url,
      build_ppr_url default_max_str_digits 22026 1 = Returned url /\
      forall year' quarter' url',
        build_ppr_url default_max_str_digits year' quarter' = Returned url' ->
        22026%Z <> year' \/ 1%Z <> quarter' ->
        url <> url') /\
  build_ppr_url default_max_str_digits (10 ^ 4300) 1 = Raised ValueError.
Proof.
  split.
  - apply (proj1 (X10_build_ppr_url_tells_reports_apart
                    default_max_str_digits 22026 1)).
    split; right; apply Nat.leb_le; reflexivity.
  - apply (proj2 (X10_build_ppr_url_tells_reports_apart
                    default_max_str_digits (10 ^ 4300) 1)).
    assert (E : (default_max_str_digits <? count_digits (10 ^ 4300)) = true)
      by (vm_compute; reflexivity).
    apply Nat.ltb_lt in E.
    intros [[F | F] _].
    + discriminate F.
    + lia.
Defined.
